(** * gopdf: AcroForm field scraping and form merging (gin-server.go)

    A shallow embedding of [getAcro], [scrape], [mergeAcroForms] and the
    [handle*] attribute mergers of gin-server.go, over a model of the
    pdfcpu object graph: Go maps are references into a heap of
    dictionaries, so that aliasing and in-place mutation are visible. *)

From Stdlib Require Import ZArith List Lia.
From stdpp Require Import gmap strings list fin_maps.

Set Warnings "-register-all".

(** ** Go control effects: a state monad with panics *)

Inductive Outcome (A : Type) : Type :=
| Ret (a : A)
| Panic.
Arguments Ret {A} a.
Arguments Panic {A}.

Definition M (S A : Type) : Type := S -> Outcome A * S.

Definition ret {S A : Type} (a : A) : M S A := fun s => (Ret a, s).

Definition bind {S A B : Type} (m : M S A) (f : A -> M S B) : M S B :=
  fun s => match m s with
           | (Ret a, s') => f a s'
           | (Panic, s') => (Panic, s')
           end.

Definition panic {S A : Type} : M S A := fun s => (Panic, s).

Notation "m ;; k" := (bind m (fun _ => k))
  (at level 100, k at level 200, right associativity).

(** ** The pdfcpu object model *)

Module pdfcpu.

(** A heap location of a Go map. *)
Definition loc : Type := positive.

(** Go's [pdfcpu.Dict] is a map type, hence a reference that may be nil. *)
Definition Dict : Type := option loc.

Record IndirectRef : Type := mkIndirectRef
  { ObjectNumber : nat; GenerationNumber : nat }.

(** Modelled from the spec: pdfcpu's [Object] types are not part of
    gin-server.go.  The tagged union of the spec's data model; [Null] is
    Go's nil interface value, and [String] is the type of the value that
    getAcro stamps. *)
Inductive Object : Type :=
| Null
| OfDict (d : Dict)
| OfArray (a : list Object)
| Name (s : string)
| StringLiteral (s : string)
| String (s : string)
| Integer (i : Z)
| Boolean (b : bool)
| OfIndirectRef (ir : IndirectRef).

Definition Array : Type := list Object.

(** The memory holding every dictionary of every parsed document. *)
Abbreviation Heap := (gmap loc (gmap string Object)).

Inductive Err : Type :=
| CatalogUnavailable
| DereferenceFailed
| WrongType
| IOFailure
| ValidationFailed.

(** Go's [error]: [None] is nil. *)
Definition error : Type := option Err.

Definition isErr (err : error) : bool :=
  match err with Some _ => true | None => false end.

(** Modelled from the spec: pdfcpu's [Context] (with its [XRefTable]) is
    not part of gin-server.go.  A document is its cross-reference table,
    from reference identity to stored object, and its root dictionary.
    The spec leaves open whether resolving a reference without table
    entry is a [DereferenceFailed] error or the null object (the callers
    in gin-server.go test for both); each context carries that policy. *)
Record Context : Type := mkContext
  { Table : gmap (nat * nat) Object;
    RootDict : Dict;
    DanglingIsError : bool }.

Definition slot (ir : IndirectRef) : nat * nat :=
  (ObjectNumber ir, GenerationNumber ir).

(** The entries of the map behind a [Dict]; a nil map reads as empty. *)
Definition entries (h : Heap) (d : Dict) : gmap string Object :=
  match d with
  | Some l => default ∅ (h !! l)
  | None => ∅
  end.

(** [len(d)] *)
Definition len (h : Heap) (d : Dict) : nat := size (entries h d).

(** [d[key] = value]: assignment to an entry of a nil map panics. *)
Definition assign (d : Dict) (key : string) (value : Object) : M Heap unit :=
  fun h => match d with
           | Some l => (Ret tt, <[l := <[key := value]> (entries h d)]> h)
           | None => (Panic, h)
           end.

(** [delete(d, key)]: a no-op on a nil map. *)
Definition delete_key (d : Dict) (key : string) : M Heap unit :=
  fun h => match d with
           | Some l => (Ret tt, <[l := delete key (entries h d)]> h)
           | None => (Ret tt, h)
           end.

(** Modelled from the spec: pdfcpu's [Catalog] is not part of
    gin-server.go; it yields the document's root dictionary or fails. *)
Definition Catalog (ctx : Context) : Dict * error :=
  match RootDict ctx with
  | Some l => (Some l, None)
  | None => (None, Some CatalogUnavailable)
  end.

(** Modelled from the spec: pdfcpu's [Dict.Find], a plain map lookup. *)
Definition Find (h : Heap) (d : Dict) (key : string) : Object * bool :=
  match entries h d !! key with
  | Some v => (v, true)
  | None => (Null, false)
  end.

(** Modelled from the spec: pdfcpu's [Dict.Update] stores a non-nil value. *)
Definition Update (d : Dict) (key : string) (value : Object) : M Heap unit :=
  match value with
  | Null => ret tt
  | _ => assign d key value
  end.

(** Modelled from the spec: pdfcpu's [Dict.StringEntry].  Like the other
    typed entry readers it yields nil unless the entry is present with
    the expected type. *)
Definition StringEntry (h : Heap) (d : Dict) (key : string) : option string :=
  match Find h d key with
  | (StringLiteral s, true) => Some s
  | _ => None
  end.

(** Modelled from the spec: pdfcpu's [Dict.IntEntry]. *)
Definition IntEntry (h : Heap) (d : Dict) (key : string) : option Z :=
  match Find h d key with
  | (Integer i, true) => Some i
  | _ => None
  end.

(** Modelled from the spec: pdfcpu's [Dict.NameEntry]. *)
Definition NameEntry (h : Heap) (d : Dict) (key : string) : option string :=
  match Find h d key with
  | (Name n, true) => Some n
  | _ => None
  end.

(** Modelled from the spec: pdfcpu's [Dict.ArrayEntry]; nil (no element)
    unless the entry is an array. *)
Definition ArrayEntry (h : Heap) (d : Dict) (key : string) : Array :=
  match Find h d key with
  | (OfArray a, true) => a
  | _ => []
  end.

(** Modelled from the spec: pdfcpu's [FindTableEntryForIndRef], the
    engine's [findTableEntry]: the stored object, or not found. *)
Definition FindTableEntryForIndRef (ctx : Context) (ir : IndirectRef)
  : option Object :=
  Table ctx !! slot ir.

(** Modelled from the spec: pdfcpu's [Dereference], the engine's
    [dereference]: resolves one level of indirect reference through the
    table of [ctx] and is the identity on concrete objects. *)
Definition Dereference (ctx : Context) (o : Object) : Object * error :=
  match o with
  | OfIndirectRef ir =>
      match FindTableEntryForIndRef ctx ir with
      | Some e => (e, None)
      | None => if DanglingIsError ctx
                then (Null, Some DereferenceFailed)
                else (Null, None)
      end
  | _ => (o, None)
  end.

(** Modelled from the spec: pdfcpu's [DereferenceDict].  Like the other
    typed dereferences it yields nil without error for the null object
    and an error for an object of another type. *)
Definition DereferenceDict (ctx : Context) (o : Object) : Dict * error :=
  match Dereference ctx o with
  | (_, Some e) => (None, Some e)
  | (Null, None) => (None, None)
  | (OfDict d, None) => (d, None)
  | (_, None) => (None, Some WrongType)
  end.

(** Modelled from the spec: pdfcpu's [DereferenceArray]. *)
Definition DereferenceArray (ctx : Context) (o : Object) : Array * error :=
  match Dereference ctx o with
  | (_, Some e) => ([], Some e)
  | (Null, None) => ([], None)
  | (OfArray a, None) => (a, None)
  | (_, None) => ([], Some WrongType)
  end.

(** Modelled from the spec: pdfcpu's [DereferenceInteger].  The
    [*Integer] it returns points to a copy of the value: a Go interface
    holds its integer by value. *)
Definition DereferenceInteger (ctx : Context) (o : Object)
  : option Z * error :=
  match Dereference ctx o with
  | (_, Some e) => (None, Some e)
  | (Null, None) => (None, None)
  | (Integer i, None) => (Some i, None)
  | (_, None) => (None, Some WrongType)
  end.

(** Modelled from the spec: pdfcpu's [DereferenceBoolean], at version
    [V10], which every document has. *)
Definition DereferenceBoolean (ctx : Context) (o : Object)
  : option bool * error :=
  match Dereference ctx o with
  | (_, Some e) => (None, Some e)
  | (Null, None) => (None, None)
  | (Boolean b, None) => (Some b, None)
  | (_, None) => (None, Some WrongType)
  end.

End pdfcpu.

Import pdfcpu.

(** ** Form Merger: the attribute handlers *)

(** handleNeedAppearances *)
Definition handleNeedAppearances (ctxSource : Context) (dSrc dDest : Dict)
  : M Heap error :=
  fun h =>
  let '(o, found) := Find h dSrc "NeedAppearances" in
  if negb found || match o with Null => true | _ => false end
  then ret None h else
  let '(b, err) := DereferenceBoolean ctxSource o in
  if isErr err then ret err h else
  match b with
  | Some true =>
      (assign dDest "NeedAppearances" (Boolean true) ;; ret None) h
  | _ => ret None h
  end.

(** The value left in the copy [*iDest] by the two conditional ORs of
    handleSigFields. *)
Definition sigFlagsCopy (iSrc iDest : Z) : Z :=
  let iDest := if (Z.land iSrc 1 >? 0)%Z then Z.lor iDest 1 else iDest in
  let iDest := if (Z.land iSrc 2 >? 0)%Z then Z.lor iDest 2 else iDest in
  iDest.

(** handleSigFields.  [iDest] points to the copy made by
    [DereferenceInteger]; the ORs update that copy and the function
    returns without an assignment to [dDest]. *)
Definition handleSigFields (ctxSource ctxDest : Context) (dSrc dDest : Dict)
  : M Heap error :=
  fun h =>
  let '(o, found) := Find h dSrc "SigFields" in
  if negb found then ret None h else
  let '(iSrc, err) := DereferenceInteger ctxSource o in
  if isErr err then ret err h else
  match iSrc with
  | None => ret None h
  | Some iSrc =>
      let '(o, found) := Find h dDest "SigFlags" in
      if negb found
      then (assign dDest "SigFields" (Integer iSrc) ;; ret None) h else
      let '(iDest, err) := DereferenceInteger ctxDest o in
      if isErr err then ret err h else
      match iDest with
      | None => (assign dDest "SigFields" (Integer iSrc) ;; ret None) h
      | Some iDest =>
          let _iDest := sigFlagsCopy iSrc iDest in
          ret None h
      end
  end.

(** handleCO *)
Definition handleCO (ctxSource ctxDest : Context) (dSrc dDest : Dict)
  : M Heap error :=
  fun h =>
  let '(o, found) := Find h dSrc "CO" in
  if negb found then ret None h else
  let '(arrSrc, err) := DereferenceArray ctxSource o in
  if isErr err then ret err h else
  let '(o, found) := Find h dDest "CO" in
  if negb found
  then (assign dDest "CO" (OfArray arrSrc) ;; ret None) h else
  let '(arrDest, err) := DereferenceArray ctxDest o in
  if isErr err then ret err h else
  if Nat.eqb (length arrDest) 0
  then (assign dDest "CO" (OfArray arrSrc) ;; ret None) h
  else (assign dDest "CO" (OfArray (arrDest ++ arrSrc)) ;; ret None) h.

(** handleDR.  As in the source, the dereferenced dictionaries shadow
    the parameters [dSrc] and [dDest]. *)
Definition handleDR (ctxSource ctxDest : Context) (dSrc dDest : Dict)
  : M Heap error :=
  fun h =>
  let '(o, found) := Find h dSrc "DR" in
  if negb found then ret None h else
  let '(dSrc, err) := DereferenceDict ctxSource o in
  if isErr err then ret err h else
  if Nat.eqb (len h dSrc) 0 then ret None h else
  let '(o, found) := Find h dDest "DR" in
  if negb found
  then (assign dDest "DR" (OfDict dSrc) ;; ret None) h else
  let '(dDest, err) := DereferenceDict ctxDest o in
  if isErr err then ret err h else
  if Nat.eqb (len h dDest) 0
  then (assign dDest "DR" (OfDict dSrc) ;; ret None) h
  else ret None h.

(** The loop of handleDA over [arrFieldsSrc]. *)
Fixpoint handleDA_fields (ctxSource : Context) (sSrc : string)
  (arrFieldsSrc : Array) : M Heap error :=
  match arrFieldsSrc with
  | [] => ret None
  | o :: rest =>
      fun h =>
      let '(d, err) := DereferenceDict ctxSource o in
      if isErr err then ret err h else
      match NameEntry h d "FT" with
      | Some "Tx" =>
          let '(_, found) := Find h d "DA" in
          if negb found
          then (assign d "DA" (StringLiteral sSrc) ;;
                handleDA_fields ctxSource sSrc rest) h
          else handleDA_fields ctxSource sSrc rest h
      | _ => handleDA_fields ctxSource sSrc rest h
      end
  end.

(** handleDA *)
Definition handleDA (ctxSource : Context) (dSrc dDest : Dict)
  (arrFieldsSrc : Array) : M Heap error :=
  fun h =>
  match StringEntry h dSrc "DA" with
  | None => ret None h
  | Some sSrc =>
      if Nat.eqb (String.length sSrc) 0 then ret None h else
      match StringEntry h dDest "DA" with
      | None => (assign dDest "DA" (StringLiteral sSrc) ;; ret None) h
      | Some _ => handleDA_fields ctxSource sSrc arrFieldsSrc h
      end
  end.

(** The loop of handleQ over [arrFieldsSrc]. *)
Fixpoint handleQ_fields (ctxSource : Context) (iSrc : Z)
  (arrFieldsSrc : Array) : M Heap error :=
  match arrFieldsSrc with
  | [] => ret None
  | o :: rest =>
      fun h =>
      let '(d, err) := DereferenceDict ctxSource o in
      if isErr err then ret err h else
      match NameEntry h d "FT" with
      | Some "Tx" =>
          let '(_, found) := Find h d "Q" in
          if negb found
          then (assign d "Q" (Integer iSrc) ;;
                handleQ_fields ctxSource iSrc rest) h
          else handleQ_fields ctxSource iSrc rest h
      | _ => handleQ_fields ctxSource iSrc rest h
      end
  end.

(** handleQ *)
Definition handleQ (ctxSource : Context) (dSrc dDest : Dict)
  (arrFieldsSrc : Array) : M Heap error :=
  fun h =>
  match IntEntry h dSrc "Q" with
  | None => ret None h
  | Some iSrc =>
      match IntEntry h dDest "Q" with
      | None => (assign dDest "Q" (Integer iSrc) ;; ret None) h
      | Some _ => handleQ_fields ctxSource iSrc arrFieldsSrc h
      end
  end.

(** [if err := f(); err != nil { return err }] *)
Definition orReturn (f k : M Heap error) : M Heap error :=
  bind f (fun err => if isErr err then ret err else k).

(** handleFormAttributes *)
Definition handleFormAttributes (ctxSource ctxDest : Context)
  (dSrc dDest : Dict) (arrFieldsSrc : Array) : M Heap error :=
  orReturn (handleNeedAppearances ctxSource dSrc dDest)
  (orReturn (handleSigFields ctxSource ctxDest dSrc dDest)
  (orReturn (handleCO ctxSource ctxDest dSrc dDest)
  (orReturn (handleDR ctxSource ctxDest dSrc dDest)
  (orReturn (handleDA ctxSource dSrc dDest arrFieldsSrc)
  (orReturn (handleQ ctxSource dSrc dDest arrFieldsSrc)
  (delete_key dDest "XFA" ;; ret None)))))).

(** ** Form Merger: mergeAcroForms *)

Definition mergeAcroForms (ctxSource ctxDest : Context) : M Heap error :=
  fun h =>
  let '(rootDictDest, err) := Catalog ctxDest in
  if isErr err then ret err h else
  let '(rootDictSource, err) := Catalog ctxSource in
  if isErr err then ret err h else
  let '(o, found) := Find h rootDictSource "AcroForm" in
  if negb found then ret None h else
  let '(dSrc, err) := DereferenceDict ctxSource o in
  if isErr err || Nat.eqb (len h dSrc) 0 then ret err h else
  (* Retrieve ctxSrc AcroForm Fields *)
  let '(o, found) := Find h dSrc "Fields" in
  if negb found then ret None h else
  let '(arrFieldsSrc, err) := DereferenceArray ctxDest o in
  if isErr err then ret err h else
  if Nat.eqb (length arrFieldsSrc) 0 then ret None h else
  (* We have a ctxSrc.Acroform with fields. *)
  let replace := (assign rootDictDest "AcroForm" (OfDict dSrc) ;; ret None) in
  let '(o, found) := Find h rootDictDest "AcroForm" in
  if negb found then replace h else
  let '(dDest, err) := DereferenceDict ctxDest o in
  if isErr err then ret err h else
  if Nat.eqb (len h dDest) 0 then replace h else
  (* Retrieve ctxDest AcroForm Fields *)
  let '(o, found) := Find h dDest "Fields" in
  if negb found then replace h else
  let '(arrFieldsDest, err) := DereferenceArray ctxDest o in
  if isErr err then ret err h else
  if Nat.eqb (length arrFieldsDest) 0 then replace h else
  (* Merge all fields from ctxSrc into ctxDest *)
  let arrFieldsDest := arrFieldsDest ++ arrFieldsSrc in
  (assign dDest "Fields" (OfArray arrFieldsDest) ;;
   handleFormAttributes ctxSource ctxDest dSrc dDest arrFieldsSrc) h.

(** ** Field Scraper *)

(** A line of an error reply, ["Bad Request %v for idx: %d"]. *)
Inductive Line : Type :=
| BadRequest (err : Err) (idx : nat).

Record Response : Type := mkResponse
  { Status : Z; Message : list Line; Error : list Line }.

(** What the scraper does to the outside world, in order: log lines,
    serialisations by [pdfcpu.Write] and JSON replies of [c.JSON], under
    the key "message" or "error". *)
Inductive Event : Type :=
| LogError (idx : nat) (err : Err)
| LogNoForms (idx : nat)
| LogNoXRefTableEntry (ir : IndirectRef) (idx : nat)
| LogNotADict (ir : IndirectRef) (idx : nat)
| LogNoFieldName (i idx : nat)
| Written (ctx : Context) (DirName FileName : string)
| Replied (Status : Z) (key : string) (lines : list Line).

Record World : Type := mkWorld
  { heap : Heap; trace : list Event }.

Definition emit (e : Event) : M World unit :=
  fun w => (Ret tt, {| heap := heap w; trace := trace w ++ [e] |}).

(** Runs a dictionary operation on the heap of the world. *)
Definition onHeap {A : Type} (m : M Heap A) : M World A :=
  fun w => match m (heap w) with
           | (r, h') => (r, {| heap := h'; trace := trace w |})
           end.

(** Modelled from the spec: an opened byte source, as what the engine's
    [validate] and [parse] ([api.Validate], [api.ReadContext]) yield on
    it; neither is part of gin-server.go. *)
Record File : Type := mkFile
  { Validate : error; ReadContext : Context + Err }.

(** [os.Open]: the file system, from path to opened file or error. *)
Definition FileSystem : Type := string -> File + Err.

(** The [for i, o := range fields] loop of getAcro.  [Some r] is an
    early [return r]; [None] means the loop ran to its end. *)
Fixpoint getAcro_fields (ctx : Context) (idx i : nat) (fields : Array)
  (acro_fields : list string) : M World (option Z * list string) :=
  match fields with
  | [] => ret (None, acro_fields)
  | o :: rest =>
      match o with
      | OfIndirectRef ir =>
          match FindTableEntryForIndRef ctx ir with
          | None =>
              emit (LogNoXRefTableEntry ir idx) ;;
              ret (Some 0%Z, acro_fields)
          | Some (OfDict d) =>
              fun w =>
              match StringEntry (heap w) d "T" with
              | None =>
                  (emit (LogNoFieldName i idx) ;;
                   ret (Some 0%Z, acro_fields)) w
              | Some field_name =>
                  (onHeap (Update d "V" (String "STUFF!")) ;;
                   getAcro_fields ctx idx (S i) rest
                     (acro_fields ++ [field_name])) w
              end
          | Some _ =>
              emit (LogNotADict ir idx) ;;
              ret (Some 0%Z, acro_fields)
          end
      | _ => panic
      end
  end.

(** getAcro; the slice behind the pointer [acro_fields] is passed in and
    handed back with the result. *)
Definition getAcro (idx : nat) (source : File) (acro_fields : list string)
  : M World (Z * list string) :=
  match ReadContext source with
  | inr err => emit (LogError idx err) ;; ret (0%Z, acro_fields)
  | inl ctx =>
      match Catalog ctx with
      | (_, Some err) => emit (LogError idx err) ;; ret (0%Z, acro_fields)
      | (cat, None) =>
          fun w =>
          let '(acroform, ok) := Find (heap w) cat "AcroForm" in
          if negb ok
          then (emit (LogNoForms idx) ;; ret (0%Z, acro_fields)) w else
          match DereferenceDict ctx acroform with
          | (_, Some err) =>
              (emit (LogError idx err) ;; ret (0%Z, acro_fields)) w
          | (adict, None) =>
              let fields := ArrayEntry (heap w) adict "Fields" in
              bind (getAcro_fields ctx idx 0 fields acro_fields)
                (fun '(r, acro_fields) =>
                   match r with
                   | Some r => ret (r, acro_fields)
                   | None =>
                       emit (Written ctx "." "tezzting.pdf") ;;
                       ret (1%Z, acro_fields)
                   end) w
          end
      end
  end.

(** sendResponse *)
Definition sendResponse (response : Response) : M World unit :=
  if Nat.ltb 0 (length (Message response))
  then emit (Replied (Status response) "message" (Message response))
  else if Nat.ltb 0 (length (Error response))
  then emit (Replied (Status response) "error" (Error response))
  else ret tt.

(** errorHandler.  The errors of [os.Open] and [api.Validate] are no
    [json.UnmarshalTypeError], so the second reply is the one sent; both
    have the status [http.StatusBadRequest]. *)
Definition errorHandler (idx : nat) (err : error) : M World unit :=
  match err with
  | Some e =>
      sendResponse
        {| Status := 400; Message := []; Error := [BadRequest e idx] |}
  | None => ret tt
  end.

(** The [for idx, f := range files_list] loop of scrape. *)
Fixpoint scrape_files (fs : FileSystem) (idx : nat) (files_list : list string)
  (acro_fields : list string) : M World (list string) :=
  match files_list with
  | [] => ret acro_fields
  | f :: rest =>
      match fs f with
      | inr err =>
          errorHandler idx (Some err) ;;
          scrape_files fs (S idx) rest acro_fields
      | inl f =>
          match Validate f with
          | Some err =>
              errorHandler idx (Some err) ;;
              scrape_files fs (S idx) rest acro_fields
          | None =>
              bind (getAcro idx f acro_fields)
                (fun '(res, acro_fields) =>
                   if (res =? 0)%Z
                   then scrape_files fs (S idx) rest acro_fields
                   else scrape_files fs (S idx) rest acro_fields)
          end
      end
  end.

(** The decoded request body, as far as scrape looks into it. *)
Inductive JSON : Type :=
| JString (s : string)
| JArray (l : list JSON)
| JOther.

(** [files_list[i] = v.(string)]: a failed type assertion panics. *)
Fixpoint asStrings (files_interface : list JSON) : option (list string) :=
  match files_interface with
  | [] => Some []
  | JString s :: rest =>
      match asStrings rest with
      | Some l => Some (s :: l)
      | None => None
      end
  | _ :: _ => None
  end.

(** scrape *)
Definition scrape (fs : FileSystem) (file_dict : gmap string JSON)
  : M World (list string) :=
  match file_dict !! "files" with
  | Some (JArray files_interface) =>
      match asStrings files_interface with
      | Some files_list => scrape_files fs 0 files_list []
      | None => panic
      end
  | _ => panic
  end.

(** ** Derived notions used in the statements *)

(** The AcroForm dictionary of [ctx] and its non-empty [Fields] array,
    the latter resolved through the table of [ctxArr], as the prefix of
    mergeAcroForms reads them; [None] if one of its checks ends the merge. *)
Definition formWithFields (h : Heap) (ctx ctxArr : Context)
  : option (Dict * Array) :=
  match Catalog ctx with
  | (_, Some _) => None
  | (rootDict, None) =>
      match Find h rootDict "AcroForm" with
      | (_, false) => None
      | (o, true) =>
          match DereferenceDict ctx o with
          | (_, Some _) => None
          | (d, None) =>
              if Nat.eqb (len h d) 0 then None else
              match Find h d "Fields" with
              | (_, false) => None
              | (o, true) =>
                  match DereferenceArray ctxArr o with
                  | (_, Some _) => None
                  | (arr, None) =>
                      if Nat.eqb (length arr) 0 then None else Some (d, arr)
                  end
              end
          end
      end
  end.

(** The [Fields] array that getAcro iterates over; [None] if getAcro
    returns before its loop. *)
Definition formFields (h : Heap) (ctx : Context) : option Array :=
  match Catalog ctx with
  | (_, Some _) => None
  | (cat, None) =>
      match Find h cat "AcroForm" with
      | (_, false) => None
      | (acroform, true) =>
          match DereferenceDict ctx acroform with
          | (_, Some _) => None
          | (adict, None) => Some (ArrayEntry h adict "Fields")
          end
      end
  end.

(** A field that passes the three checks of the loop of getAcro: its
    dictionary and its name. *)
Definition fieldName (ctx : Context) (h : Heap) (o : Object)
  : option (Dict * string) :=
  match o with
  | OfIndirectRef ir =>
      match FindTableEntryForIndRef ctx ir with
      | Some (OfDict d) =>
          match StringEntry h d "T" with
          | Some field_name => Some (d, field_name)
          | None => None
          end
      | _ => None
      end
  | _ => None
  end.

(** The dictionaries and names of [fields] if all of them pass. *)
Fixpoint fieldNames (ctx : Context) (h : Heap) (fields : Array)
  : option (list (Dict * string)) :=
  match fields with
  | [] => Some []
  | o :: rest =>
      match fieldName ctx h o with
      | None => None
      | Some dn =>
          match fieldNames ctx h rest with
          | Some dns => Some (dn :: dns)
          | None => None
          end
      end
  end.

(** A field that fails one of the three checks, with the line logged:
    no table entry, not a dictionary, no [T] string. *)
Definition anomaly (ctx : Context) (h : Heap) (i idx : nat) (o : Object)
  : option Event :=
  match o with
  | OfIndirectRef ir =>
      match FindTableEntryForIndRef ctx ir with
      | None => Some (LogNoXRefTableEntry ir idx)
      | Some (OfDict d) =>
          match StringEntry h d "T" with
          | Some _ => None
          | None => Some (LogNoFieldName i idx)
          end
      | Some _ => Some (LogNotADict ir idx)
      end
  | _ => None
  end.

(** The heap after [d.Update("V", pdfcpu.String("STUFF!"))] on each
    dictionary of [ds], in order. *)
Fixpoint stampV (ds : list Dict) (h : Heap) : Heap :=
  match ds with
  | [] => h
  | d :: rest => stampV rest (snd (Update d "V" (String "STUFF!") h))
  end.

(** The per-field policy in the spec's words (4.1, steps 5 to 8): a field
    with an anomaly is skipped and scraping continues with the next one. *)
Fixpoint skippingNames (ctx : Context) (h : Heap) (fields : Array)
  : list string :=
  match fields with
  | [] => []
  | o :: rest =>
      match fieldName ctx h o with
      | Some (_, field_name) => field_name :: skippingNames ctx h rest
      | None => skippingNames ctx h rest
      end
  end.

(** An operation that leaves the entry [k] of every dictionary as it is,
    whatever its outcome. *)
Definition keeps {A : Type} (k : string) (m : M Heap A) : Prop :=
  forall (h : Heap) (d : Dict),
  entries (snd (m h)) d !! k = entries h d !! k.

(** Two heaps that differ at most in [V] entries. *)
Definition sameButV (h1 h2 : Heap) : Prop :=
  forall (d : Dict) (k : string),
  k <> "V" -> entries h1 d !! k = entries h2 d !! k.

(** ** Concrete documents *)

Definition f1 : Object := OfIndirectRef (mkIndirectRef 10 0).
Definition f2 : Object := OfIndirectRef (mkIndirectRef 20 0).
Definition f3 : Object := OfIndirectRef (mkIndirectRef 21 0).
Definition g9 : Object := OfIndirectRef (mkIndirectRef 9 0).

(** A destination document (catalog at 1, form at 2, field f1 at 3) and a
    source document (catalog at 11, form at 12, field f2 at 13) with the
    given form dictionaries; [more] holds further dictionaries. *)
Definition twoDocs (destForm srcForm : gmap string Object) (more : Heap)
  : Heap :=
  <[1%positive := {[ "AcroForm" := OfDict (Some 2%positive) ]}]>
  (<[2%positive := destForm]>
  (<[3%positive := {[ "T" := StringLiteral "a"; "FT" := Name "Tx" ]}]>
  (<[11%positive := {[ "AcroForm" := OfDict (Some 12%positive) ]}]>
  (<[12%positive := srcForm]>
  (<[13%positive := {[ "T" := StringLiteral "b"; "FT" := Name "Tx" ]}]>
   more))))).

Definition destDoc (more : gmap (nat * nat) Object) (strict : bool)
  : Context :=
  {| Table := <[(10, 0) := OfDict (Some 3%positive)]> more;
     RootDict := Some 1%positive;
     DanglingIsError := strict |}.

Definition srcDoc (more : gmap (nat * nat) Object) (strict : bool)
  : Context :=
  {| Table := <[(20, 0) := OfDict (Some 13%positive)]> more;
     RootDict := Some 11%positive;
     DanglingIsError := strict |}.

Definition dDestForm : Dict := Some 2%positive.
Definition dSrcForm : Dict := Some 12%positive.
Definition dF2 : Dict := Some 13%positive.

(** The scenario of the spec: destination DA only, source DA and Q. *)
Definition scenarioHeap : Heap :=
  twoDocs {[ "Fields" := OfArray [f1];
             "DA" := StringLiteral "/Helv 0 Tf 0 g" ]}
          {[ "Fields" := OfArray [f2];
             "DA" := StringLiteral "/Cour 0 Tf 0 g";
             "Q" := Integer 1 ]}
          ∅.

(** Signature flags on both sides, under the key each side is read by. *)
Definition sigHeap (srcKey : string) (iSrc iDest : Z) : Heap :=
  twoDocs {[ "Fields" := OfArray [f1]; "SigFlags" := Integer iDest ]}
          {[ "Fields" := OfArray [f2]; srcKey := Integer iSrc ]}
          ∅.

(** A destination form with XFA; the source catalog has no AcroForm. *)
Definition xfaHeap : Heap :=
  <[11%positive := {[ "Type" := Name "Catalog" ]}]>
  (twoDocs {[ "Fields" := OfArray [f1]; "XFA" := StringLiteral "<xdp/>" ]}
           ∅ ∅).

(** A destination form with XFA and no fields; the source form has a
    field and an XFA of its own. *)
Definition xfaWholesaleHeap : Heap :=
  twoDocs {[ "XFA" := StringLiteral "<xdp/>" ]}
          {[ "Fields" := OfArray [f2]; "XFA" := StringLiteral "<src/>" ]}
          ∅.

(** Both forms with fields, the destination with XFA. *)
Definition xfaBothHeap : Heap :=
  twoDocs {[ "Fields" := OfArray [f1]; "XFA" := StringLiteral "<xdp/>" ]}
          {[ "Fields" := OfArray [f2] ]}
          ∅.

(** The source keeps its [Fields] array as object (5, 0). *)
Definition indirectFieldsHeap : Heap :=
  twoDocs {[ "Fields" := OfArray [f1] ]}
          {[ "Fields" := OfIndirectRef (mkIndirectRef 5 0) ]}
          ∅.

(** Both documents keep their [Fields] array as object (5, 0). *)
Definition bothIndirectHeap : Heap :=
  twoDocs {[ "Fields" := OfIndirectRef (mkIndirectRef 5 0) ]}
          {[ "Fields" := OfIndirectRef (mkIndirectRef 5 0) ]}
          ∅.

(** The destination has an empty DR dictionary (at 4), the source a DR
    with one font (at 14). *)
Definition drHeap : Heap :=
  twoDocs {[ "Fields" := OfArray [f1]; "DR" := OfDict (Some 4%positive) ]}
          {[ "Fields" := OfArray [f2]; "DR" := OfDict (Some 14%positive) ]}
          (<[4%positive := ∅]>
           (<[14%positive := {[ "Font" := Name "Helv" ]}]> ∅)).

(** A document whose form has the given [Fields], read from a file. *)
Definition formHeap (Fields : Array) : Heap :=
  twoDocs {[ "Fields" := OfArray Fields ]} ∅ ∅.

Definition destFile (strict : bool) : File :=
  {| Validate := None; ReadContext := inl (destDoc ∅ strict) |}.

Definition oneFile (strict : bool) : FileSystem :=
  fun path => if String.eqb path "a.pdf"
              then inl (destFile strict) else inr IOFailure.

(** A request for two files, of which only the second can be opened. *)
Definition twoFilesRequest : gmap string JSON :=
  {[ "files" := JArray (map JString (["b.pdf"] ++ "a.pdf" :: [])) ]}.

Definition startWorld (Fields : Array) : World :=
  {| heap := formHeap Fields; trace := [] |}.

(** Two documents whose forms have one field each and the given further
    entries. *)
Definition attrHeap (destAttrs srcAttrs : gmap string Object) (more : Heap)
  : Heap :=
  twoDocs (<["Fields" := OfArray [f1]]> destAttrs)
          (<["Fields" := OfArray [f2]]> srcAttrs)
          more.

(** ** Heap and monad lemmas *)

Ltac break_hyp_match :=
  repeat match goal with
         | H : context [match ?x with _ => _ end] |- _ =>
             destruct x eqn:?; try discriminate H
         end.

Lemma entries_insert_eq (h : Heap) (l : loc) (m : gmap string Object) :
  entries (<[l := m]> h) (Some l) = m.
Proof. unfold entries. by rewrite lookup_insert_eq. Qed.

Lemma entries_insert_ne (h : Heap) (l l' : loc) (m : gmap string Object) :
  l ≠ l' -> entries (<[l := m]> h) (Some l') = entries h (Some l').
Proof. intros Hne. unfold entries. by rewrite lookup_insert_ne. Qed.

Lemma entries_nil (h : Heap) : entries h None = ∅.
Proof. reflexivity. Qed.


Lemma Find_lookup (h : Heap) (d : Dict) (key : string) :
  Find h d key = match entries h d !! key with
                 | Some v => (v, true)
                 | None => (Null, false)
                 end.
Proof. reflexivity. Qed.

Lemma Find_found (h : Heap) (d : Dict) (key : string) (o : Object) :
  Find h d key = (o, true) <-> entries h d !! key = Some o.
Proof.
  rewrite Find_lookup. destruct (entries h d !! key); split; congruence.
Qed.

Lemma Find_missing (h : Heap) (d : Dict) (key : string) :
  snd (Find h d key) = false <-> entries h d !! key = None.
Proof.
  rewrite Find_lookup. destruct (entries h d !! key); simpl; split; congruence.
Qed.

Lemma orReturn_nil_inv (f k : M Heap error) (h h' : Heap) :
  orReturn f k h = (Ret None, h') ->
  exists h1, f h = (Ret None, h1) /\ k h1 = (Ret None, h').
Proof.
  unfold orReturn, bind. destruct (f h) as [[[e|]|] h1]; simpl; intros H.
  - discriminate H.
  - eauto.
  - discriminate H.
Qed.

(** ** Form Merger: the paths of mergeAcroForms *)

(** With a non-empty [Fields] array read on both sides, the merge
    concatenates the arrays and goes on to the attributes. *)
Lemma mergeAcroForms_both_with_fields
  (ctxSource ctxDest : Context) (h : Heap)
  (dSrc dDest : Dict) (arrFieldsSrc arrFieldsDest : Array) :
  formWithFields h ctxSource ctxDest = Some (dSrc, arrFieldsSrc) ->
  formWithFields h ctxDest ctxDest = Some (dDest, arrFieldsDest) ->
  mergeAcroForms ctxSource ctxDest h =
  (assign dDest "Fields" (OfArray (arrFieldsDest ++ arrFieldsSrc)) ;;
   handleFormAttributes ctxSource ctxDest dSrc dDest arrFieldsSrc) h.
Proof.
  unfold formWithFields, mergeAcroForms. intros Hs Hd.
  break_hyp_match. simplify_eq. simpl.
  repeat match goal with H : _ = _ |- _ => rewrite H end.
  reflexivity.
Qed.

Lemma handleFormAttributes_drops_XFA
  (ctxSource ctxDest : Context) (dSrc dDest : Dict) (arrFieldsSrc : Array)
  (h h' : Heap) :
  handleFormAttributes ctxSource ctxDest dSrc dDest arrFieldsSrc h
  = (Ret None, h') ->
  Find h' dDest "XFA" = (Null, false).
Proof.
  unfold handleFormAttributes. intros H.
  repeat (apply orReturn_nil_inv in H; destruct H as (? & _ & H)).
  unfold bind, delete_key, ret in H. destruct dDest as [l|].
  - simplify_eq. rewrite Find_lookup, entries_insert_eq, lookup_delete_eq.
    reflexivity.
  - reflexivity.
Qed.

(** ** Form Merger: no-op merge *)

(** C8: merging a source document whose Catalog has no [AcroForm] entry
    into a destination document returns success (a nil error) and leaves
    the heap, hence the destination's AcroForm dictionary and every
    other dictionary of its object graph, unchanged. *)
Theorem mergeAcroForms_source_without_AcroForm
  (ctxSource ctxDest : Context) (h : Heap) (rootDictSource rootDictDest : Dict) :
  Catalog ctxDest = (rootDictDest, None) ->
  Catalog ctxSource = (rootDictSource, None) ->
  snd (Find h rootDictSource "AcroForm") = false ->
  mergeAcroForms ctxSource ctxDest h = (Ret None, h).
Proof.
  intros HD HS Hno. unfold mergeAcroForms. rewrite HD, HS. simpl.
  destruct (Find h rootDictSource "AcroForm") as [o found].
  simpl in Hno. subst found. reflexivity.
Qed.

Lemma mergeAcroForms_source_without_AcroForm_witness :
  mergeAcroForms (srcDoc ∅ false) (destDoc ∅ true) xfaHeap
  = (Ret None, xfaHeap).
Proof.
  apply (mergeAcroForms_source_without_AcroForm
           (srcDoc ∅ false) (destDoc ∅ true) xfaHeap
           (Some 11%positive) (Some 1%positive)).
  - reflexivity.
  - reflexivity.
  - vm_compute. reflexivity.
Defined.

(** ** Form Merger: XFA *)

(** C3, as stated, fails: the source catalog has no AcroForm, the merge
    returns success, and the destination form still has its XFA entry. *)
Lemma XFA_survives_noop_merge :
  let r := mergeAcroForms (srcDoc ∅ false) (destDoc ∅ false) xfaHeap in
  Find xfaHeap dDestForm "XFA" = (StringLiteral "<xdp/>", true) /\
  fst r = Ret None /\
  Find (snd r) dDestForm "XFA" = (StringLiteral "<xdp/>", true).
Proof. vm_compute. repeat split. Qed.

(** After a wholesale replacement the destination's AcroForm is the
    source's dictionary, with the source's XFA. *)
Lemma XFA_of_source_after_wholesale_replacement :
  let r := mergeAcroForms (srcDoc ∅ false) (destDoc ∅ false)
             xfaWholesaleHeap in
  fst r = Ret None /\
  Find (snd r) (Some 1%positive) "AcroForm" = (OfDict dSrcForm, true) /\
  Find (snd r) dSrcForm "XFA" = (StringLiteral "<src/>", true).
Proof. vm_compute. repeat split. Qed.

(** C3, amended: when both forms have a non-empty [Fields] array as
    mergeAcroForms reads them, so that the merge reaches the attribute
    rules, and mergeAcroForms returns success, the destination AcroForm
    dictionary has no [XFA] entry, whatever the source holds. *)
Theorem mergeAcroForms_drops_XFA
  (ctxSource ctxDest : Context) (h h' : Heap)
  (dSrc dDest : Dict) (arrFieldsSrc arrFieldsDest : Array) :
  formWithFields h ctxSource ctxDest = Some (dSrc, arrFieldsSrc) ->
  formWithFields h ctxDest ctxDest = Some (dDest, arrFieldsDest) ->
  mergeAcroForms ctxSource ctxDest h = (Ret None, h') ->
  Find h' dDest "XFA" = (Null, false).
Proof.
  intros Hs Hd.
  rewrite (mergeAcroForms_both_with_fields _ _ _ _ _ _ _ Hs Hd).
  unfold bind. destruct (assign dDest "Fields" _ h) as [[[]|] h1]; intros H.
  - eapply handleFormAttributes_drops_XFA. exact H.
  - discriminate H.
Qed.

Lemma mergeAcroForms_drops_XFA_witness :
  Find xfaBothHeap dDestForm "XFA" = (StringLiteral "<xdp/>", true) /\
  Find (snd (mergeAcroForms (srcDoc ∅ false) (destDoc ∅ false) xfaBothHeap))
       dDestForm "XFA" = (Null, false).
Proof.
  split.
  - vm_compute. reflexivity.
  - apply (mergeAcroForms_drops_XFA
             (srcDoc ∅ false) (destDoc ∅ false) xfaBothHeap _
             dSrcForm dDestForm [f2] [f1]).
    + vm_compute. reflexivity.
    + vm_compute. reflexivity.
    + vm_compute. reflexivity.
Defined.

(** ** Form Merger: signature flags *)

(** With an integer under [SigFields] in the source and under [SigFlags]
    in the destination, handleSigFields changes nothing: the ORs are
    made on a copy. *)
Lemma handleSigFields_both_present
  (ctxSource ctxDest : Context) (dSrc dDest : Dict) (h : Heap)
  (oSrc oDest : Object) (iSrc iDest : Z) :
  Find h dSrc "SigFields" = (oSrc, true) ->
  DereferenceInteger ctxSource oSrc = (Some iSrc, None) ->
  Find h dDest "SigFlags" = (oDest, true) ->
  DereferenceInteger ctxDest oDest = (Some iDest, None) ->
  handleSigFields ctxSource ctxDest dSrc dDest h = (Ret None, h).
Proof.
  intros H1 H2 H3 H4. unfold handleSigFields.
  rewrite H1. simpl. rewrite H2. simpl. rewrite H3. simpl. rewrite H4.
  reflexivity.
Qed.

(** A source form without a [SigFields] entry is not looked at, whatever
    it has under [SigFlags]. *)
Lemma handleSigFields_source_SigFlags_ignored
  (ctxSource ctxDest : Context) (dSrc dDest : Dict) (h : Heap) :
  snd (Find h dSrc "SigFields") = false ->
  handleSigFields ctxSource ctxDest dSrc dDest h = (Ret None, h).
Proof.
  intros H. unfold handleSigFields.
  destruct (Find h dSrc "SigFields") as [o found]. simpl in H. subst found.
  reflexivity.
Qed.

(** C1: with destination flags 2 and source flags 1 the claim gives
    [2 | (1 & 1) | (1 & 2) = 3].  The code computes 3 in a copy only:
    after a successful merge the destination's [SigFlags] is still 2 and
    no other flags entry was written, under either key of the source. *)
Theorem SigFlags_OR_is_lost (srcKey : string) (strictS strictD : bool) :
  srcKey = "SigFields" \/ srcKey = "SigFlags" ->
  let r := mergeAcroForms (srcDoc ∅ strictS) (destDoc ∅ strictD)
             (sigHeap srcKey 1 2) in
  sigFlagsCopy 1 2 = 3%Z /\
  fst r = Ret None /\
  Find (snd r) dDestForm "SigFlags" = (Integer 2, true) /\
  Find (snd r) dDestForm "SigFields" = (Null, false).
Proof.
  intros [-> | ->]; destruct strictS, strictD; vm_compute; repeat split.
Qed.

Lemma SigFlags_OR_is_lost_witness :
  Find (snd (mergeAcroForms (srcDoc ∅ false) (destDoc ∅ false)
               (sigHeap "SigFields" 1 2)))
       dDestForm "SigFlags" = (Integer 2, true).
Proof.
  apply (SigFlags_OR_is_lost "SigFields" false false).
  left. reflexivity.
Defined.

(** ** Form Merger: whose table resolves the source [Fields] *)

(** C4: the source keeps its [Fields] array [f2] as object (5, 0); in
    the destination's table (5, 0) is another array [g9].  The merge
    appends the destination's object: the reference taken from the
    source form was resolved through the destination's table. *)
Theorem source_Fields_resolved_through_destination_table
  (strictS strictD : bool) :
  let ctxSource := srcDoc {[ (5, 0) := OfArray [f2] ]} strictS in
  let ctxDest := destDoc {[ (5, 0) := OfArray [g9] ]} strictD in
  let r := mergeAcroForms ctxSource ctxDest indirectFieldsHeap in
  Find indirectFieldsHeap dSrcForm "Fields"
  = (OfIndirectRef (mkIndirectRef 5 0), true) /\
  DereferenceArray ctxSource (OfIndirectRef (mkIndirectRef 5 0))
  = ([f2], None) /\
  fst r = Ret None /\
  Find (snd r) dDestForm "Fields" = (OfArray [f1; g9], true).
Proof. destruct strictS, strictD; vm_compute; repeat split. Qed.

(** C5: both documents keep their [Fields] array as object (5, 0): the
    destination has the one field [f1], the source the two fields [f2]
    and [f3].  After a successful merge the destination's [Fields] has
    two entries, not three, and none of them is a source entry (the
    defect of C4). *)
Theorem indirect_source_Fields_not_appended (strictS strictD : bool) :
  let ctxSource := srcDoc {[ (5, 0) := OfArray [f2; f3] ]} strictS in
  let ctxDest := destDoc {[ (5, 0) := OfArray [f1] ]} strictD in
  let r := mergeAcroForms ctxSource ctxDest bothIndirectHeap in
  DereferenceArray ctxDest (fst (Find bothIndirectHeap dDestForm "Fields"))
  = ([f1], None) /\
  DereferenceArray ctxSource (fst (Find bothIndirectHeap dSrcForm "Fields"))
  = ([f2; f3], None) /\
  fst r = Ret None /\
  Find (snd r) dDestForm "Fields" = (OfArray [f1; f1], true).
Proof. destruct strictS, strictD; vm_compute; repeat split. Qed.

(** ** Form Merger: default resources *)

(** C6: the destination's [DR] is an empty dictionary, the source's [DR]
    has one entry.  After a successful merge the destination form's [DR]
    entry is still its own dictionary, which now holds the source's
    dictionary under a key [DR] of its own. *)
Theorem empty_DR_gets_nested_DR (strictS strictD : bool) :
  let r := mergeAcroForms (srcDoc ∅ strictS) (destDoc ∅ strictD) drHeap in
  Find drHeap dDestForm "DR" = (OfDict (Some 4%positive), true) /\
  len drHeap (Some 4%positive) = 0 /\
  Find drHeap dSrcForm "DR" = (OfDict (Some 14%positive), true) /\
  fst r = Ret None /\
  Find (snd r) dDestForm "DR" = (OfDict (Some 4%positive), true) /\
  entries (snd r) (Some 4%positive)
  = {[ "DR" := OfDict (Some 14%positive) ]}.
Proof. destruct strictS, strictD; vm_compute; repeat split. Qed.

(** ** Form Merger: the scenario *)

(** C9: destination form with [Fields = [f1]], [DA = "/Helv 0 Tf 0 g"]
    and no [Q]; source form with [Fields = [f2]], [DA = "/Cour 0 Tf 0 g"]
    and [Q = 1], where f2 has [FT = Tx] and no [DA].  After the merge the
    destination has [Fields = [f1, f2]], its [DA] is unchanged, f2 has
    the source's [DA], and the destination's [Q] is 1. *)
Theorem scenario_DA_pushed_down_and_Q_adopted (strictS strictD : bool) :
  let ctxSource := srcDoc ∅ strictS in
  let r := mergeAcroForms ctxSource (destDoc ∅ strictD) scenarioHeap in
  (Find scenarioHeap dDestForm "Q" = (Null, false) /\
   DereferenceDict ctxSource f2 = (dF2, None) /\
   NameEntry scenarioHeap dF2 "FT" = Some "Tx" /\
   Find scenarioHeap dF2 "DA" = (Null, false)) /\
  fst r = Ret None /\
  Find (snd r) dDestForm "Fields" = (OfArray [f1; f2], true) /\
  Find (snd r) dDestForm "DA" = (StringLiteral "/Helv 0 Tf 0 g", true) /\
  Find (snd r) dF2 "DA" = (StringLiteral "/Cour 0 Tf 0 g", true) /\
  Find (snd r) dDestForm "Q" = (Integer 1, true).
Proof. destruct strictS, strictD; vm_compute; repeat split. Qed.

(** ** Field Scraper: the loop of getAcro *)

Lemma lookup_assign_ne (d d' : Dict) (key k : string) (v : Object) (h : Heap) :
  key ≠ k ->
  entries (snd (assign d key v h)) d' !! k = entries h d' !! k.
Proof.
  intros Hk. destruct d as [l|]; [|reflexivity]. unfold assign. cbn [snd].
  destruct d' as [l'|]; [|reflexivity].
  destruct (decide (l = l')) as [->|Hl].
  - rewrite entries_insert_eq. by rewrite lookup_insert_ne.
  - by rewrite entries_insert_ne.
Qed.

Lemma lookup_assign_eq (l : loc) (key : string) (v : Object) (h : Heap) :
  entries (snd (assign (Some l) key v h)) (Some l) !! key = Some v.
Proof.
  unfold assign. cbn [snd]. rewrite entries_insert_eq.
  by rewrite lookup_insert_eq.
Qed.

Lemma lookup_assign_other (l : loc) (d' : Dict) (key k : string) (v : Object)
  (h : Heap) :
  d' ≠ Some l ->
  entries (snd (assign (Some l) key v h)) d' !! k = entries h d' !! k.
Proof.
  intros Hd. destruct d' as [l'|]; [|reflexivity]. unfold assign. cbn [snd].
  rewrite entries_insert_ne; [reflexivity|congruence].
Qed.

Lemma StringEntry_stamp (d d' : Dict) (h : Heap) :
  StringEntry (snd (Update d "V" (String "STUFF!") h)) d' "T"
  = StringEntry h d' "T".
Proof.
  unfold StringEntry. rewrite !Find_lookup. simpl.
  by rewrite lookup_assign_ne.
Qed.

Lemma fieldName_stamp (ctx : Context) (d : Dict) (h : Heap) (o : Object) :
  fieldName ctx (snd (Update d "V" (String "STUFF!") h)) o
  = fieldName ctx h o.
Proof.
  unfold fieldName. destruct o; try reflexivity.
  destruct (FindTableEntryForIndRef ctx ir) as [[]|]; try reflexivity.
  by rewrite StringEntry_stamp.
Qed.

Lemma fieldNames_stamp (ctx : Context) (d : Dict) (h : Heap) (fields : Array) :
  fieldNames ctx (snd (Update d "V" (String "STUFF!") h)) fields
  = fieldNames ctx h fields.
Proof.
  induction fields as [|o rest IH]; cbn [fieldNames]; [reflexivity|].
  by rewrite fieldName_stamp, IH.
Qed.

Lemma anomaly_stamp (ctx : Context) (d : Dict) (h : Heap) (i idx : nat)
  (o : Object) :
  anomaly ctx (snd (Update d "V" (String "STUFF!") h)) i idx o
  = anomaly ctx h i idx o.
Proof.
  unfold anomaly. destruct o; try reflexivity.
  destruct (FindTableEntryForIndRef ctx ir) as [[]|]; try reflexivity.
  by rewrite StringEntry_stamp.
Qed.

(** A named field has a non-nil dictionary, found through the table. *)
Lemma fieldName_inv (ctx : Context) (h : Heap) (o : Object) (d : Dict)
  (field_name : string) :
  fieldName ctx h o = Some (d, field_name) ->
  exists ir l, o = OfIndirectRef ir /\ d = Some l /\
    FindTableEntryForIndRef ctx ir = Some (OfDict d) /\
    StringEntry h d "T" = Some field_name.
Proof.
  unfold fieldName. intros H. break_hyp_match. simplify_eq.
  destruct d as [l|]; [eauto 10|].
  discriminate.
Qed.

(** One turn of the loop on a field that passes the checks. *)
Lemma getAcro_fields_step (ctx : Context) (idx i : nat) (o : Object)
  (rest : Array) (acro_fields : list string) (w : World) (d : Dict)
  (field_name : string) :
  fieldName ctx (heap w) o = Some (d, field_name) ->
  getAcro_fields ctx idx i (o :: rest) acro_fields w
  = getAcro_fields ctx idx (S i) rest (acro_fields ++ [field_name])
      {| heap := snd (Update d "V" (String "STUFF!") (heap w));
         trace := trace w |}.
Proof.
  intros H. apply fieldName_inv in H as (ir & l & -> & -> & Ht & Hn).
  simpl. rewrite Ht, Hn. reflexivity.
Qed.

(** The loop on fields that all pass: it runs to its end. *)
Lemma getAcro_fields_all_named (ctx : Context) (idx : nat) (fields : Array) :
  forall (i : nat) (acro_fields : list string) (w : World)
         (dns : list (Dict * string)),
  fieldNames ctx (heap w) fields = Some dns ->
  getAcro_fields ctx idx i fields acro_fields w
  = (Ret (None, acro_fields ++ map snd dns),
     {| heap := stampV (map fst dns) (heap w); trace := trace w |}).
Proof.
  induction fields as [|o rest IH]; intros i acro_fields w dns H.
  - simpl in H. simplify_eq. simpl. rewrite app_nil_r. by destruct w.
  - simpl in H. destruct (fieldName ctx (heap w) o) as [[d n]|] eqn:Ho;
      [|discriminate].
    destruct (fieldNames ctx (heap w) rest) as [dns'|] eqn:Hr; [|discriminate].
    simplify_eq. rewrite (getAcro_fields_step _ _ _ _ _ _ _ _ _ Ho).
    rewrite (IH _ _ _ dns'); [|cbn [heap]; by rewrite fieldNames_stamp].
    cbn [heap trace map fst snd stampV]. by rewrite <- app_assoc.
Qed.

(** The loop on fields of which the first ones pass and the next one has
    an anomaly: it returns 0 there. *)
Lemma getAcro_fields_abort (ctx : Context) (idx : nat) (pre : Array) :
  forall (i : nat) (acro_fields : list string) (w : World)
         (dns : list (Dict * string)) (bad : Object) (post : Array)
         (ev : Event),
  fieldNames ctx (heap w) pre = Some dns ->
  anomaly ctx (heap w) (i + length pre) idx bad = Some ev ->
  getAcro_fields ctx idx i (pre ++ bad :: post) acro_fields w
  = (Ret (Some 0%Z, acro_fields ++ map snd dns),
     {| heap := stampV (map fst dns) (heap w); trace := trace w ++ [ev] |}).
Proof.
  induction pre as [|o rest IH]; intros i acro_fields w dns bad post ev H Hbad.
  - simpl in H. simplify_eq. simpl. rewrite app_nil_r.
    simpl in Hbad. rewrite Nat.add_0_r in Hbad.
    unfold anomaly in Hbad. destruct bad; try discriminate.
    destruct (FindTableEntryForIndRef ctx ir) as [[]|]; simplify_eq;
      try reflexivity.
    destruct (StringEntry (heap w) d "T"); simplify_eq. reflexivity.
  - simpl in H. destruct (fieldName ctx (heap w) o) as [[d n]|] eqn:Ho;
      [|discriminate].
    destruct (fieldNames ctx (heap w) rest) as [dns'|] eqn:Hr; [|discriminate].
    simplify_eq. simpl app.
    rewrite (getAcro_fields_step _ _ _ _ _ _ _ _ _ Ho).
    rewrite (IH _ _ _ dns' bad post ev).
    + cbn [heap trace map fst snd stampV]. by rewrite <- app_assoc.
    + cbn [heap]. by rewrite fieldNames_stamp.
    + cbn [heap]. rewrite anomaly_stamp.
      cbn [length] in Hbad. by rewrite Nat.add_succ_r in Hbad.
Qed.

(** Once stamped, a dictionary keeps its [V] through later stamps. *)
Lemma stampV_keeps_V (ds : list Dict) :
  forall (h : Heap) (d : Dict),
  Find h d "V" = (String "STUFF!", true) ->
  Find (stampV ds h) d "V" = (String "STUFF!", true).
Proof.
  induction ds as [|d0 rest IH]; intros h d H; [exact H|].
  cbn [stampV]. apply IH. rewrite Find_lookup.
  apply Find_found in H.
  destruct d0 as [l0|]; [|unfold Update, assign; cbn [snd]; by rewrite H].
  destruct (decide (d = Some l0)) as [->|Hne].
  - unfold Update. by rewrite lookup_assign_eq.
  - unfold Update. by rewrite lookup_assign_other, H.
Qed.

(** Every stamped dictionary ends with [V = String "STUFF!"]. *)
Lemma stampV_sets_V (ds : list Dict) :
  forall (h : Heap) (l : loc),
  In (Some l) ds ->
  Find (stampV ds h) (Some l) "V" = (String "STUFF!", true).
Proof.
  induction ds as [|d0 rest IH]; intros h l Hin; [destruct Hin|].
  destruct Hin as [->|Hin].
  - cbn [stampV]. apply stampV_keeps_V.
    rewrite Find_lookup. unfold Update. by rewrite lookup_assign_eq.
  - cbn [stampV]. by apply IH.
Qed.

Lemma fieldNames_dicts (ctx : Context) (h : Heap) (fields : Array) :
  forall (dns : list (Dict * string)) (d : Dict),
  fieldNames ctx h fields = Some dns ->
  In d (map fst dns) -> exists l, d = Some l.
Proof.
  induction fields as [|o rest IH]; intros dns d H Hin.
  - simpl in H. simplify_eq. destruct Hin.
  - cbn [fieldNames] in H.
    destruct (fieldName ctx h o) as [[d0 n]|] eqn:Ho; [|discriminate].
    destruct (fieldNames ctx h rest) as [dns'|] eqn:Hr; [|discriminate].
    simplify_eq. destruct Hin as [<-|Hin].
    + apply fieldName_inv in Ho as (? & l & _ & -> & _). eauto.
    + eapply IH; eauto.
Qed.

Lemma fieldNames_length (ctx : Context) (h : Heap) (fields : Array) :
  forall dns : list (Dict * string),
  fieldNames ctx h fields = Some dns -> length dns = length fields.
Proof.
  induction fields as [|o rest IH]; intros dns H.
  - simpl in H. by simplify_eq.
  - cbn [fieldNames] in H.
    destruct (fieldName ctx h o) as [dn|]; [|discriminate].
    destruct (fieldNames ctx h rest) as [dns'|] eqn:Hr; [|discriminate].
    simplify_eq. simpl. f_equal. by apply IH.
Qed.

(** ** Field Scraper: getAcro *)

(** getAcro up to its loop. *)
Lemma getAcro_loop (idx : nat) (source : File) (acro_fields : list string)
  (w : World) (ctx : Context) (fields : Array) :
  ReadContext source = inl ctx ->
  formFields (heap w) ctx = Some fields ->
  getAcro idx source acro_fields w
  = bind (getAcro_fields ctx idx 0 fields acro_fields)
      (fun '(r, acro_fields) =>
         match r with
         | Some r => ret (r, acro_fields)
         | None =>
             emit (Written ctx "." "tezzting.pdf") ;; ret (1%Z, acro_fields)
         end) w.
Proof.
  unfold getAcro, formFields. intros -> H.
  destruct (Catalog ctx) as [cat [e|]]; [discriminate|].
  destruct (Find (heap w) cat "AcroForm") as [acroform []]; [|discriminate].
  destruct (DereferenceDict ctx acroform) as [adict [e|]]; [discriminate|].
  simplify_eq. reflexivity.
Qed.

(** The loop only appends to the names it was given. *)
Lemma getAcro_fields_extends (ctx : Context) (idx : nat) (fields : Array) :
  forall (i : nat) (acro_fields : list string) (w : World)
         (r : option Z) (acro_fields' : list string) (w' : World),
  getAcro_fields ctx idx i fields acro_fields w = (Ret (r, acro_fields'), w') ->
  exists tail, acro_fields' = acro_fields ++ tail.
Proof.
  induction fields as [|o rest IH]; intros i acro_fields w r acro_fields' w' H.
  - simpl in H. unfold ret in H. simplify_eq. exists []. by rewrite app_nil_r.
  - destruct (fieldName ctx (heap w) o) as [[d n]|] eqn:Ho.
    + rewrite (getAcro_fields_step _ _ _ _ _ _ _ _ _ Ho) in H.
      apply IH in H as [tail ->]. exists (n :: tail).
      by rewrite <- app_assoc.
    + exists []. rewrite app_nil_r.
      unfold fieldName in Ho. cbn [getAcro_fields] in H.
      destruct o; try (unfold panic in H; discriminate H).
      destruct (FindTableEntryForIndRef ctx ir) as [[]|];
        try (unfold bind, emit, ret in H; by simplify_eq).
      destruct (StringEntry (heap w) d "T"); [discriminate Ho|].
      unfold bind, emit, ret in H. by simplify_eq.
Qed.

Lemma getAcro_extends (idx : nat) (source : File) (acro_fields : list string)
  (w : World) (res : Z) (acro_fields' : list string) (w' : World) :
  getAcro idx source acro_fields w = (Ret (res, acro_fields'), w') ->
  exists tail, acro_fields' = acro_fields ++ tail.
Proof.
  unfold getAcro. intros H.
  assert (Hsame : exists tail, acro_fields = acro_fields ++ tail)
    by (exists []; by rewrite app_nil_r).
  destruct (ReadContext source) as [ctx|e];
    [|unfold bind, emit, ret in H; by simplify_eq].
  destruct (Catalog ctx) as [cat [e|]];
    [unfold bind, emit, ret in H; by simplify_eq|].
  destruct (Find (heap w) cat "AcroForm") as [acroform []]; cbn [negb] in H;
    [|unfold bind, emit, ret in H; by simplify_eq].
  destruct (DereferenceDict ctx acroform) as [adict [e|]];
    [unfold bind, emit, ret in H; by simplify_eq|].
  unfold bind in H.
  destruct (getAcro_fields ctx idx 0 (ArrayEntry (heap w) adict "Fields")
              acro_fields w) as [[[r acc]|] w1] eqn:Hloop; [|discriminate H].
  apply getAcro_fields_extends in Hloop as [tail ->].
  destruct r; unfold emit, ret in H; simplify_eq; eauto.
Qed.

(** ** Field Scraper: scrape *)

Lemma scrape_files_extends (fs : FileSystem) (files_list : list string) :
  forall (idx : nat) (acro_fields : list string) (w : World)
         (result : list string) (w' : World),
  scrape_files fs idx files_list acro_fields w = (Ret result, w') ->
  exists tail, result = acro_fields ++ tail.
Proof.
  induction files_list as [|f rest IH]; intros idx acro_fields w result w' H.
  - simpl in H. unfold ret in H. simplify_eq. exists []. by rewrite app_nil_r.
  - cbn [scrape_files] in H. destruct (fs f) as [source|e].
    + destruct (Validate source) as [e|].
      * unfold bind, errorHandler, sendResponse, emit in H. simpl in H.
        eapply IH, H.
      * unfold bind in H.
        destruct (getAcro idx source acro_fields w) as [[[res acc]|] w1]
          eqn:Hg; [|discriminate H].
        apply getAcro_extends in Hg as [t1 ->].
        assert (exists tail, result = (acro_fields ++ t1) ++ tail)
          as [t2 ->] by (destruct (res =? 0)%Z; eapply IH, H).
        exists (t1 ++ t2). by rewrite app_assoc.
    + unfold bind, errorHandler, sendResponse, emit in H. simpl in H.
      eapply IH, H.
Qed.

(** The loop of scrape over a list of files in two parts. *)
Lemma scrape_files_app (fs : FileSystem) (before after : list string) :
  forall (idx : nat) (acro_fields : list string) (w : World),
  scrape_files fs idx (before ++ after) acro_fields w
  = bind (scrape_files fs idx before acro_fields)
      (fun acro_fields' =>
         scrape_files fs (idx + length before) after acro_fields') w.
Proof.
  induction before as [|f rest IH]; intros idx acro_fields w.
  - simpl. unfold bind, ret. by rewrite Nat.add_0_r.
  - cbn [app scrape_files length]. rewrite Nat.add_succ_r.
    unfold bind in *. destruct (fs f) as [source|e].
    + destruct (Validate source) as [e|].
      * unfold errorHandler, sendResponse, emit. simpl. apply IH.
      * destruct (getAcro idx source acro_fields w) as [[[res acc]|] w1];
          [|reflexivity].
        destruct (res =? 0)%Z; apply IH.
    + unfold errorHandler, sendResponse, emit. simpl. apply IH.
Qed.

Lemma asStrings_JString (files_list : list string) :
  asStrings (map JString files_list) = Some files_list.
Proof.
  induction files_list as [|f rest IH]; [reflexivity|].
  simpl. by rewrite IH.
Qed.

(** Dictionaries that are not stamped keep their entries. *)
Lemma stampV_other (ds : list Dict) :
  forall (h : Heap) (d : Dict),
  ~ In d ds -> entries (stampV ds h) d = entries h d.
Proof.
  induction ds as [|d0 rest IH]; intros h d Hd; [reflexivity|].
  cbn [stampV]. rewrite IH by (intros ?; apply Hd; by right).
  destruct d0 as [l0|]; [|reflexivity].
  destruct d as [l|]; [|reflexivity].
  unfold Update, assign. cbn [snd]. apply entries_insert_ne.
  intros ->. apply Hd. by left.
Qed.

(** The three anomalies of the loop of getAcro. *)
Lemma anomaly_kinds (ctx : Context) (h : Heap) (i idx : nat) (o : Object)
  (ev : Event) :
  anomaly ctx h i idx o = Some ev ->
  exists ir, o = OfIndirectRef ir /\
    ((FindTableEntryForIndRef ctx ir = None /\
      ev = LogNoXRefTableEntry ir idx) \/
     (exists e, FindTableEntryForIndRef ctx ir = Some e /\
                (forall d, e <> OfDict d) /\ ev = LogNotADict ir idx) \/
     (exists d, FindTableEntryForIndRef ctx ir = Some (OfDict d) /\
                StringEntry h d "T" = None /\ ev = LogNoFieldName i idx)).
Proof.
  unfold anomaly. intros H. destruct o; try discriminate H.
  exists ir. split; [reflexivity|].
  destruct (FindTableEntryForIndRef ctx ir) as [e|]; [|left; by simplify_eq].
  destruct e; try (right; left; eexists; repeat split; by simplify_eq).
  right; right. destruct (StringEntry h d "T") eqn:Ht; [discriminate H|].
  exists d. by simplify_eq.
Qed.

Lemma anomaly_not_Written (ctx : Context) (h : Heap) (i idx : nat)
  (o : Object) (ev : Event) :
  anomaly ctx h i idx o = Some ev ->
  forall c DirName FileName, ev <> Written c DirName FileName.
Proof.
  intros H c DirName FileName ->.
  apply anomaly_kinds in H as (ir & _ & [[_ ?]|[(? & _ & _ & ?)|(? & _ & _ & ?)]]);
    discriminate.
Qed.

(** getAcro on a document of which the first fields pass and the next
    one has an anomaly. *)
Lemma getAcro_abort (idx : nat) (source : File) (acro_fields : list string)
  (w : World) (ctx : Context) (pre : Array) (bad : Object) (post : Array)
  (dns : list (Dict * string)) (ev : Event) :
  ReadContext source = inl ctx ->
  formFields (heap w) ctx = Some (pre ++ bad :: post) ->
  fieldNames ctx (heap w) pre = Some dns ->
  anomaly ctx (heap w) (length pre) idx bad = Some ev ->
  getAcro idx source acro_fields w
  = (Ret (0%Z, acro_fields ++ map snd dns),
     {| heap := stampV (map fst dns) (heap w); trace := trace w ++ [ev] |}).
Proof.
  intros Hctx Hf Hpre Hbad. rewrite (getAcro_loop _ _ _ _ _ _ Hctx Hf).
  unfold bind.
  rewrite (getAcro_fields_abort _ _ _ 0 _ _ dns bad post ev Hpre Hbad).
  reflexivity.
Qed.

(** C2, as stated, fails: the first field of the document has no table
    entry and the second is a well-formed field named "a".  Skipping the
    first field would give the name "a"; getAcro returns 0 at the first
    field with no name and without stamping the second field. *)
Lemma field_after_anomaly_is_not_scraped :
  let w := startWorld [g9; f1] in
  let r := getAcro 0 (destFile false) [] w in
  formFields (heap w) (destDoc ∅ false) = Some [g9; f1] /\
  skippingNames (destDoc ∅ false) (heap w) [g9; f1] = ["a"] /\
  r = (Ret (0%Z, []),
       {| heap := heap w;
          trace := [LogNoXRefTableEntry (mkIndirectRef 9 0) 0] |}).
Proof. vm_compute. repeat split. Qed.

(** C2, amended: a field whose reference has no table entry, or resolves
    to a non-dictionary, or whose dictionary has no [T] string, is logged
    and ends the scraping of that document: getAcro returns 0 there,
    keeps the names of the fields before it, does not touch any other
    dictionary (the later fields are not processed) and writes nothing. *)
Theorem getAcro_returns_at_anomaly (idx : nat) (source : File)
  (acro_fields : list string) (w : World) (ctx : Context)
  (pre : Array) (bad : Object) (post : Array)
  (dns : list (Dict * string)) (ev : Event) :
  ReadContext source = inl ctx ->
  formFields (heap w) ctx = Some (pre ++ bad :: post) ->
  fieldNames ctx (heap w) pre = Some dns ->
  anomaly ctx (heap w) (length pre) idx bad = Some ev ->
  getAcro idx source acro_fields w
  = (Ret (0%Z, acro_fields ++ map snd dns),
     {| heap := stampV (map fst dns) (heap w); trace := trace w ++ [ev] |}) /\
  (forall d, ~ In d (map fst dns) ->
     entries (stampV (map fst dns) (heap w)) d = entries (heap w) d) /\
  (forall c DirName FileName, ev <> Written c DirName FileName).
Proof.
  intros Hctx Hf Hpre Hbad. split; [|split].
  - by apply (getAcro_abort _ _ _ _ ctx pre bad post).
  - intros d Hd. by apply stampV_other.
  - by eapply anomaly_not_Written.
Qed.

Lemma getAcro_returns_at_anomaly_witness :
  fst (getAcro 0 (destFile true) [] (startWorld [f1; g9; f1]))
  = Ret (0%Z, ["a"]).
Proof.
  pose proof (getAcro_returns_at_anomaly 0 (destFile true) []
                (startWorld [f1; g9; f1]) (destDoc ∅ true)
                [f1] g9 [f1] [(Some 3%positive, "a")]
                (LogNoXRefTableEntry (mkIndirectRef 9 0) 0)) as H.
  destruct H as [H _].
  - reflexivity.
  - vm_compute. reflexivity.
  - vm_compute. reflexivity.
  - vm_compute. reflexivity.
  - rewrite H. reflexivity.
Defined.

(** C7, as stated, fails: the form has no fields, so no field is
    written, and getAcro still serialises the document, under a file
    name of its own. *)
Lemma getAcro_writes_without_a_written_field :
  getAcro 0 (destFile false) [] (startWorld [])
  = (Ret (1%Z, []),
     {| heap := formHeap [];
        trace := [Written (destDoc ∅ false) "." "tezzting.pdf"] |}).
Proof. vm_compute. reflexivity. Qed.

(** C7, amended: getAcro has no read-only mode.  On a document whose
    fields all pass, it sets the [V] entry of every field dictionary to
    the fixed [String "STUFF!"] and then, also when there is no field,
    serialises the document once, under the fixed directory "." and the
    fixed file name "tezzting.pdf", and returns 1. *)
Theorem getAcro_stamps_every_field_and_writes (idx : nat) (source : File)
  (acro_fields : list string) (w : World) (ctx : Context) (fields : Array)
  (dns : list (Dict * string)) :
  ReadContext source = inl ctx ->
  formFields (heap w) ctx = Some fields ->
  fieldNames ctx (heap w) fields = Some dns ->
  getAcro idx source acro_fields w
  = (Ret (1%Z, acro_fields ++ map snd dns),
     {| heap := stampV (map fst dns) (heap w);
        trace := trace w ++ [Written ctx "." "tezzting.pdf"] |}) /\
  (forall d, In d (map fst dns) ->
     Find (stampV (map fst dns) (heap w)) d "V" = (String "STUFF!", true)).
Proof.
  intros Hctx Hf Hall. split.
  - rewrite (getAcro_loop _ _ _ _ _ _ Hctx Hf). unfold bind.
    rewrite (getAcro_fields_all_named _ _ _ 0 _ _ dns Hall). reflexivity.
  - intros d Hd.
    destruct (fieldNames_dicts _ _ _ _ _ Hall Hd) as [l ->].
    by apply stampV_sets_V.
Qed.

Lemma getAcro_stamps_every_field_and_writes_witness :
  fst (getAcro 0 (destFile false) [] (startWorld [f1])) = Ret (1%Z, ["a"]).
Proof.
  pose proof (getAcro_stamps_every_field_and_writes 0 (destFile false) []
                (startWorld [f1]) (destDoc ∅ false) [f1]
                [(Some 3%positive, "a")]) as H.
  destruct H as [H _].
  - reflexivity.
  - vm_compute. reflexivity.
  - vm_compute. reflexivity.
  - rewrite H. reflexivity.
Defined.

(** C10: when getAcro returns at an anomalous field of a document, the
    names of the fields before it stay in the list that scrape returns,
    after the names of the earlier files; between the events of the
    earlier files and those of the later ones there is the anomaly's log
    line only, so nothing was written for this document; and the names
    taken from it are fewer than its fields. *)
Theorem scrape_keeps_names_before_anomaly (fs : FileSystem)
  (file_dict : gmap string JSON) (before : list string) (f : string)
  (rest : list string) (w0 w : World) (names : list string)
  (source : File) (ctx : Context) (pre : Array) (bad : Object) (post : Array)
  (dns : list (Dict * string)) (ev : Event) :
  file_dict !! "files" = Some (JArray (map JString (before ++ f :: rest))) ->
  scrape_files fs 0 before [] w0 = (Ret names, w) ->
  fs f = inl source ->
  Validate source = None ->
  ReadContext source = inl ctx ->
  formFields (heap w) ctx = Some (pre ++ bad :: post) ->
  fieldNames ctx (heap w) pre = Some dns ->
  anomaly ctx (heap w) (length pre) (length before) bad = Some ev ->
  scrape fs file_dict w0
  = scrape_files fs (S (length before)) rest (names ++ map snd dns)
      {| heap := stampV (map fst dns) (heap w); trace := trace w ++ [ev] |} /\
  (forall result wEnd, scrape fs file_dict w0 = (Ret result, wEnd) ->
     exists tail, result = names ++ map snd dns ++ tail) /\
  (forall c DirName FileName, ev <> Written c DirName FileName) /\
  length (map snd dns) < length (pre ++ bad :: post).
Proof.
  intros Hfiles Hbefore Hfs Hvalid Hctx Hf Hpre Hbad.
  assert (Hrun : scrape fs file_dict w0
    = scrape_files fs (S (length before)) rest (names ++ map snd dns)
        {| heap := stampV (map fst dns) (heap w);
           trace := trace w ++ [ev] |}).
  { unfold scrape. rewrite Hfiles, asStrings_JString, scrape_files_app.
    unfold bind at 1. rewrite Hbefore. cbn [scrape_files Nat.add].
    rewrite Hfs, Hvalid. unfold bind at 1.
    rewrite (getAcro_abort _ _ _ _ ctx pre bad post dns ev Hctx Hf Hpre Hbad).
    reflexivity. }
  split; [exact Hrun|]. split; [|split].
  - intros result wEnd H. rewrite Hrun in H.
    apply scrape_files_extends in H as [tail ->].
    exists tail. by rewrite app_assoc.
  - by eapply anomaly_not_Written.
  - rewrite length_map, (fieldNames_length _ _ _ _ Hpre), length_app.
    simpl. lia.
Qed.

Lemma scrape_keeps_names_before_anomaly_witness :
  fst (scrape (oneFile false) twoFilesRequest (startWorld [f1; g9; f1]))
  = Ret ["a"].
Proof.
  pose proof (scrape_keeps_names_before_anomaly (oneFile false)
                twoFilesRequest ["b.pdf"] "a.pdf" []
                (startWorld [f1; g9; f1])
                {| heap := formHeap [f1; g9; f1];
                   trace := [Replied 400 "error" [BadRequest IOFailure 0]] |}
                [] (destFile false) (destDoc ∅ false)
                [f1] g9 [f1] [(Some 3%positive, "a")]
                (LogNoXRefTableEntry (mkIndirectRef 9 0) 1)) as H.
  destruct H as [H _].
  - reflexivity.
  - vm_compute. reflexivity.
  - reflexivity.
  - reflexivity.
  - reflexivity.
  - vm_compute. reflexivity.
  - vm_compute. reflexivity.
  - vm_compute. reflexivity.
  - rewrite H. reflexivity.
Defined.

(** ** Form Merger: which entries the attribute handlers leave alone *)

Lemma keeps_ret {A : Type} (k : string) (a : A) : keeps k (ret a).
Proof. intros h d. reflexivity. Qed.

Lemma keeps_bind {A B : Type} (k : string) (m : M Heap A) (f : A -> M Heap B) :
  keeps k m -> (forall a, keeps k (f a)) -> keeps k (bind m f).
Proof.
  intros Hm Hf h d. unfold bind. specialize (Hm h d).
  destruct (m h) as [[a|] h1]; cbn [snd] in *.
  - by rewrite Hf.
  - exact Hm.
Qed.

Lemma keeps_assign (k key : string) (d : Dict) (v : Object) :
  key ≠ k -> keeps k (assign d key v).
Proof. intros Hk h d'. by apply lookup_assign_ne. Qed.

Lemma keeps_delete_key (k key : string) (d : Dict) :
  key ≠ k -> keeps k (delete_key d key).
Proof.
  intros Hk h d'. destruct d as [l|]; [|reflexivity].
  unfold delete_key. cbn [snd]. destruct d' as [l'|]; [|reflexivity].
  destruct (decide (l = l')) as [->|Hl].
  - rewrite entries_insert_eq. by rewrite lookup_delete_ne.
  - by rewrite entries_insert_ne.
Qed.

Lemma keeps_assign_ret (k key : string) (d : Dict) (v : Object) (err : error) :
  key ≠ k -> keeps k (assign d key v ;; ret err).
Proof.
  intros Hk. apply keeps_bind; [by apply keeps_assign|].
  intros _. apply keeps_ret.
Qed.

Lemma handleNeedAppearances_keeps (k : string) (ctxSource : Context)
  (dSrc dDest : Dict) :
  k ≠ "NeedAppearances" ->
  keeps k (handleNeedAppearances ctxSource dSrc dDest).
Proof.
  intros Hk h d. unfold handleNeedAppearances.
  repeat case_match; try reflexivity;
    apply (keeps_assign_ret k "NeedAppearances"); congruence.
Qed.

Lemma handleSigFields_keeps (k : string) (ctxSource ctxDest : Context)
  (dSrc dDest : Dict) :
  k ≠ "SigFields" ->
  keeps k (handleSigFields ctxSource ctxDest dSrc dDest).
Proof.
  intros Hk h d. unfold handleSigFields.
  repeat case_match; try reflexivity;
    apply (keeps_assign_ret k "SigFields"); congruence.
Qed.

Lemma handleCO_keeps (k : string) (ctxSource ctxDest : Context)
  (dSrc dDest : Dict) :
  k ≠ "CO" -> keeps k (handleCO ctxSource ctxDest dSrc dDest).
Proof.
  intros Hk h d. unfold handleCO.
  repeat case_match; try reflexivity;
    apply (keeps_assign_ret k "CO"); congruence.
Qed.

Lemma handleDR_keeps (k : string) (ctxSource ctxDest : Context)
  (dSrc dDest : Dict) :
  k ≠ "DR" -> keeps k (handleDR ctxSource ctxDest dSrc dDest).
Proof.
  intros Hk h d. unfold handleDR.
  repeat case_match; try reflexivity;
    apply (keeps_assign_ret k "DR"); congruence.
Qed.

Lemma handleDA_fields_keeps (k : string) (ctxSource : Context) (sSrc : string)
  (arrFieldsSrc : Array) :
  k ≠ "DA" -> keeps k (handleDA_fields ctxSource sSrc arrFieldsSrc).
Proof.
  intros Hk. induction arrFieldsSrc as [|o rest IH]; [apply keeps_ret|].
  intros h d. cbn [handleDA_fields].
  repeat case_match; try reflexivity; try apply IH.
  apply (keeps_bind k (assign _ "DA" _) (fun _ => handleDA_fields _ _ rest)).
  - apply keeps_assign. congruence.
  - intros _. exact IH.
Qed.

Lemma handleDA_keeps (k : string) (ctxSource : Context) (dSrc dDest : Dict)
  (arrFieldsSrc : Array) :
  k ≠ "DA" -> keeps k (handleDA ctxSource dSrc dDest arrFieldsSrc).
Proof.
  intros Hk h d. unfold handleDA.
  repeat case_match; try reflexivity.
  - by apply handleDA_fields_keeps.
  - apply (keeps_assign_ret k "DA"). congruence.
Qed.

Lemma handleQ_fields_keeps (k : string) (ctxSource : Context) (iSrc : Z)
  (arrFieldsSrc : Array) :
  k ≠ "Q" -> keeps k (handleQ_fields ctxSource iSrc arrFieldsSrc).
Proof.
  intros Hk. induction arrFieldsSrc as [|o rest IH]; [apply keeps_ret|].
  intros h d. cbn [handleQ_fields].
  repeat case_match; try reflexivity; try apply IH.
  apply (keeps_bind k (assign _ "Q" _) (fun _ => handleQ_fields _ _ rest)).
  - apply keeps_assign. congruence.
  - intros _. exact IH.
Qed.

Lemma handleQ_keeps (k : string) (ctxSource : Context) (dSrc dDest : Dict)
  (arrFieldsSrc : Array) :
  k ≠ "Q" -> keeps k (handleQ ctxSource dSrc dDest arrFieldsSrc).
Proof.
  intros Hk h d. unfold handleQ.
  repeat case_match; try reflexivity.
  - by apply handleQ_fields_keeps.
  - apply (keeps_assign_ret k "Q"). congruence.
Qed.

Lemma orReturn_keeps (k : string) (f g : M Heap error) :
  keeps k f -> keeps k g -> keeps k (orReturn f g).
Proof.
  intros Hf Hg. apply keeps_bind; [exact Hf|].
  intros err. destruct (isErr err); [apply keeps_ret|exact Hg].
Qed.

(** The attribute rules write the entries NeedAppearances, SigFields,
    CO, DR, DA and Q and delete XFA; every other entry of every
    dictionary is as before, also when they stop with an error. *)
Lemma handleFormAttributes_keeps (k : string) (ctxSource ctxDest : Context)
  (dSrc dDest : Dict) (arrFieldsSrc : Array) :
  k ∉ ["NeedAppearances"; "SigFields"; "CO"; "DR"; "DA"; "Q"; "XFA"] ->
  keeps k (handleFormAttributes ctxSource ctxDest dSrc dDest arrFieldsSrc).
Proof.
  intros Hk. rewrite !not_elem_of_cons in Hk.
  destruct Hk as (? & ? & ? & ? & ? & ? & ? & _).
  unfold handleFormAttributes.
  repeat apply orReturn_keeps.
  - by apply handleNeedAppearances_keeps.
  - by apply handleSigFields_keeps.
  - by apply handleCO_keeps.
  - by apply handleDR_keeps.
  - by apply handleDA_keeps.
  - by apply handleQ_keeps.
  - apply keeps_bind; [by apply keeps_delete_key|]. intros _. apply keeps_ret.
Qed.

(** ** Form Merger: the concatenation of [Fields] *)





(** ** Form Merger: what handleSigFields and handleDR do otherwise *)

(** A source integer under [SigFields] is copied, under [SigFields],
    into a destination form without a [SigFlags] entry. *)
Lemma handleSigFields_copies
  (ctxSource ctxDest : Context) (dSrc dDest : Dict) (h : Heap)
  (oSrc : Object) (iSrc : Z) :
  Find h dSrc "SigFields" = (oSrc, true) ->
  DereferenceInteger ctxSource oSrc = (Some iSrc, None) ->
  snd (Find h dDest "SigFlags") = false ->
  handleSigFields ctxSource ctxDest dSrc dDest h
  = (assign dDest "SigFields" (Integer iSrc) ;; ret None) h.
Proof.
  intros H1 H2 H3. unfold handleSigFields.
  rewrite H1. cbn [negb]. rewrite H2. cbn [isErr].
  destruct (Find h dDest "SigFlags") as [o found]. cbn [snd] in H3.
  subst found. reflexivity.
Qed.

(** A destination form without [DR] adopts a non-empty source [DR]. *)
Lemma handleDR_adopts
  (ctxSource ctxDest : Context) (dSrc dDest : Dict) (h : Heap)
  (oSrc : Object) (drSrc : Dict) :
  Find h dSrc "DR" = (oSrc, true) ->
  DereferenceDict ctxSource oSrc = (drSrc, None) ->
  Nat.eqb (len h drSrc) 0 = false ->
  snd (Find h dDest "DR") = false ->
  handleDR ctxSource ctxDest dSrc dDest h
  = (assign dDest "DR" (OfDict drSrc) ;; ret None) h.
Proof.
  intros H1 H2 H3 H4. unfold handleDR.
  rewrite H1. cbn [negb]. rewrite H2. cbn [isErr]. rewrite H3.
  destruct (Find h dDest "DR") as [o found]. cbn [snd] in H4.
  subst found. reflexivity.
Qed.

(** A destination form whose [DR] resolves to a non-empty dictionary is
    left as it is, and so is every other dictionary. *)
Lemma handleDR_nonempty_untouched
  (ctxSource ctxDest : Context) (dSrc dDest : Dict) (h : Heap)
  (oDest : Object) (drDest : Dict) :
  Find h dDest "DR" = (oDest, true) ->
  DereferenceDict ctxDest oDest = (drDest, None) ->
  Nat.eqb (len h drDest) 0 = false ->
  snd (handleDR ctxSource ctxDest dSrc dDest h) = h.
Proof.
  intros H1 H2 H3. unfold handleDR.
  destruct (Find h dSrc "DR") as [o []]; [|reflexivity]. cbn [negb].
  destruct (DereferenceDict ctxSource o) as [dr [e|]]; [reflexivity|].
  cbn [isErr]. destruct (Nat.eqb (len h dr) 0); [reflexivity|].
  rewrite H1. cbn [negb]. rewrite H2. cbn [isErr]. rewrite H3. reflexivity.
Qed.

(** A destination form whose [DR] resolves to an empty dictionary keeps
    that dictionary as its [DR]; the source's [DR] is stored inside it. *)
Lemma handleDR_empty_writes_inside
  (ctxSource ctxDest : Context) (dSrc dDest : Dict) (h : Heap)
  (oSrc oDest : Object) (drSrc drDest : Dict) :
  Find h dSrc "DR" = (oSrc, true) ->
  DereferenceDict ctxSource oSrc = (drSrc, None) ->
  Nat.eqb (len h drSrc) 0 = false ->
  Find h dDest "DR" = (oDest, true) ->
  DereferenceDict ctxDest oDest = (drDest, None) ->
  Nat.eqb (len h drDest) 0 = true ->
  handleDR ctxSource ctxDest dSrc dDest h
  = (assign drDest "DR" (OfDict drSrc) ;; ret None) h.
Proof.
  intros H1 H2 H3 H4 H5 H6. unfold handleDR.
  rewrite H1. cbn [negb]. rewrite H2. cbn [isErr]. rewrite H3, H4.
  cbn [negb]. rewrite H5. cbn [isErr]. rewrite H6. reflexivity.
Qed.

(** ** Form Merger: first-wins defaults *)

(** A destination form without a [DA] string adopts a non-empty source
    [DA]. *)
Lemma handleDA_adopts (ctxSource : Context) (dSrc dDest : Dict)
  (arrFieldsSrc : Array) (h : Heap) (sSrc : string) :
  StringEntry h dSrc "DA" = Some sSrc ->
  Nat.eqb (String.length sSrc) 0 = false ->
  StringEntry h dDest "DA" = None ->
  handleDA ctxSource dSrc dDest arrFieldsSrc h
  = (assign dDest "DA" (StringLiteral sSrc) ;; ret None) h.
Proof.
  intros H1 H2 H3. unfold handleDA. by rewrite H1, H2, H3.
Qed.

(** The push-down of [DA] writes only where there is no [DA] entry: an
    entry that is present is as before, whatever the outcome. *)
Lemma handleDA_fields_keeps_present (ctxSource : Context) (sSrc : string)
  (arrFieldsSrc : Array) :
  forall (h : Heap) (d : Dict) (v : Object),
  entries h d !! "DA" = Some v ->
  entries (snd (handleDA_fields ctxSource sSrc arrFieldsSrc h)) d !! "DA"
  = Some v.
Proof.
  induction arrFieldsSrc as [|o rest IH]; intros h d v Hv; [exact Hv|].
  cbn [handleDA_fields].
  destruct (DereferenceDict ctxSource o) as [d0 [e|]]; [exact Hv|].
  cbn [isErr].
  assert (Hskip : entries (snd (handleDA_fields ctxSource sSrc rest h)) d
                  !! "DA" = Some v) by (by apply IH).
  repeat case_match; try exact Hskip.
  match goal with
  | HF : Find h d0 "DA" = (_, ?b), Hb : negb ?b = true |- _ =>
      destruct b; [discriminate Hb|];
      assert (Hno : entries h d0 !! "DA" = None)
        by (apply Find_missing; by rewrite HF)
  end.
  unfold bind. destruct d0 as [l0|]; [|exact Hv].
  unfold assign at 1. apply IH.
  rewrite <- Hv. apply lookup_assign_other. intros ->. congruence.
Qed.

(** The [DA] of a destination form that has one is not overwritten. *)
Lemma handleDA_first_wins (ctxSource : Context) (dSrc dDest : Dict)
  (arrFieldsSrc : Array) (h : Heap) (sDest : string) :
  StringEntry h dDest "DA" = Some sDest ->
  StringEntry (snd (handleDA ctxSource dSrc dDest arrFieldsSrc h)) dDest "DA"
  = Some sDest.
Proof.
  intros HD. unfold handleDA.
  destruct (StringEntry h dSrc "DA") as [sSrc|]; [|exact HD].
  destruct (Nat.eqb (String.length sSrc) 0); [exact HD|]. rewrite HD.
  unfold StringEntry in *. rewrite Find_lookup in *.
  destruct (entries h dDest !! "DA") as [v|] eqn:Hv; [|discriminate].
  by rewrite (handleDA_fields_keeps_present _ _ _ _ _ v Hv).
Qed.

(** A destination form without an integer [Q] adopts the source's. *)
Lemma handleQ_adopts (ctxSource : Context) (dSrc dDest : Dict)
  (arrFieldsSrc : Array) (h : Heap) (iSrc : Z) :
  IntEntry h dSrc "Q" = Some iSrc ->
  IntEntry h dDest "Q" = None ->
  handleQ ctxSource dSrc dDest arrFieldsSrc h
  = (assign dDest "Q" (Integer iSrc) ;; ret None) h.
Proof.
  intros H1 H2. unfold handleQ. by rewrite H1, H2.
Qed.

Lemma handleQ_fields_keeps_present (ctxSource : Context) (iSrc : Z)
  (arrFieldsSrc : Array) :
  forall (h : Heap) (d : Dict) (v : Object),
  entries h d !! "Q" = Some v ->
  entries (snd (handleQ_fields ctxSource iSrc arrFieldsSrc h)) d !! "Q"
  = Some v.
Proof.
  induction arrFieldsSrc as [|o rest IH]; intros h d v Hv; [exact Hv|].
  cbn [handleQ_fields].
  destruct (DereferenceDict ctxSource o) as [d0 [e|]]; [exact Hv|].
  cbn [isErr].
  assert (Hskip : entries (snd (handleQ_fields ctxSource iSrc rest h)) d
                  !! "Q" = Some v) by (by apply IH).
  repeat case_match; try exact Hskip.
  match goal with
  | HF : Find h d0 "Q" = (_, ?b), Hb : negb ?b = true |- _ =>
      destruct b; [discriminate Hb|];
      assert (Hno : entries h d0 !! "Q" = None)
        by (apply Find_missing; by rewrite HF)
  end.
  unfold bind. destruct d0 as [l0|]; [|exact Hv].
  unfold assign at 1. apply IH.
  rewrite <- Hv. apply lookup_assign_other. intros ->. congruence.
Qed.

(** The [Q] of a destination form that has one is not overwritten. *)
Lemma handleQ_first_wins (ctxSource : Context) (dSrc dDest : Dict)
  (arrFieldsSrc : Array) (h : Heap) (iDest : Z) :
  IntEntry h dDest "Q" = Some iDest ->
  IntEntry (snd (handleQ ctxSource dSrc dDest arrFieldsSrc h)) dDest "Q"
  = Some iDest.
Proof.
  intros HD. unfold handleQ.
  destruct (IntEntry h dSrc "Q") as [iSrc|]; [|exact HD]. rewrite HD.
  unfold IntEntry in *. rewrite Find_lookup in *.
  destruct (entries h dDest !! "Q") as [v|] eqn:Hv; [|discriminate].
  by rewrite (handleQ_fields_keeps_present _ _ _ _ _ v Hv).
Qed.

(** ** Form Merger: when the merge does nothing, and wholesale replacement *)



(** X2: when the source has a form with fields and the destination has
    none (no AcroForm entry, an empty form, no [Fields] or an empty
    [Fields]), a successful merge stores the source's form dictionary
    under [AcroForm] in the destination's catalog and changes nothing
    else: no attribute rule is applied. *)
Theorem mergeAcroForms_replaces_wholesale
  (ctxSource ctxDest : Context) (h h' : Heap) (dSrc : Dict)
  (arrFieldsSrc : Array) :
  formWithFields h ctxSource ctxDest = Some (dSrc, arrFieldsSrc) ->
  formWithFields h ctxDest ctxDest = None ->
  mergeAcroForms ctxSource ctxDest h = (Ret None, h') ->
  exists l, RootDict ctxDest = Some l /\
    h' = <[l := <["AcroForm" := OfDict dSrc]> (entries h (Some l))]> h.
Proof.
  unfold formWithFields, mergeAcroForms, Catalog. intros Hs Hd.
  destruct (RootDict ctxDest) as [l|]; [|discriminate].
  destruct (RootDict ctxSource) as [ls|]; [|discriminate]. cbn [isErr].
  destruct (Find h (Some ls) "AcroForm") as [o []]; [|discriminate].
  cbn [negb].
  destruct (DereferenceDict ctxSource o) as [d [e|]]; [discriminate|].
  cbn [isErr orb]. destruct (Nat.eqb (len h d) 0); [discriminate|].
  destruct (Find h d "Fields") as [oF []]; [|discriminate]. cbn [negb].
  destruct (DereferenceArray ctxDest oF) as [arr [e|]]; [discriminate|].
  cbn [isErr]. destruct (Nat.eqb (length arr) 0); [discriminate|].
  simplify_eq.
  assert (Hrep : forall r : Outcome error * Heap,
            (assign (Some l) "AcroForm" (OfDict dSrc) ;; ret None) h = r ->
            r = (Ret None, h') ->
            exists l0, Some l = Some l0 /\
              h' = <[l0 := <["AcroForm" := OfDict dSrc]> (entries h (Some l0))]> h).
  { intros r <- Hr. unfold bind, assign, ret in Hr. simplify_eq. eauto. }
  destruct (Find h (Some l) "AcroForm") as [oD []]; cbn [negb];
    [|intros H; by eapply Hrep].
  destruct (DereferenceDict ctxDest oD) as [dDest [e|]]; cbn [isErr];
    [discriminate|].
  destruct (Nat.eqb (len h dDest) 0); [intros H; by eapply Hrep|].
  destruct (Find h dDest "Fields") as [oFD []]; cbn [negb];
    [|intros H; by eapply Hrep].
  destruct (DereferenceArray ctxDest oFD) as [arrD [e|]]; cbn [isErr];
    [discriminate|].
  destruct (Nat.eqb (length arrD) 0); [intros H; by eapply Hrep|].
  discriminate Hd.
Qed.

Lemma mergeAcroForms_replaces_wholesale_witness :
  exists l, RootDict (destDoc ∅ false) = Some l /\
    snd (mergeAcroForms (srcDoc ∅ false) (destDoc ∅ false) xfaWholesaleHeap)
    = <[l := <["AcroForm" := OfDict dSrcForm]>
                (entries xfaWholesaleHeap (Some l))]> xfaWholesaleHeap.
Proof.
  apply (mergeAcroForms_replaces_wholesale
           (srcDoc ∅ false) (destDoc ∅ false) xfaWholesaleHeap
           (snd (mergeAcroForms (srcDoc ∅ false) (destDoc ∅ false)
                   xfaWholesaleHeap))
           dSrcForm [f2]).
  - vm_compute. reflexivity.
  - vm_compute. reflexivity.
  - vm_compute. reflexivity.
Defined.



(** X4: the merge writes or deletes entries under the keys AcroForm,
    Fields, NeedAppearances, SigFields, CO, DR, DA, Q and XFA only: an
    entry under any other key, in any dictionary of either document, is
    as before, whatever the outcome. *)
Theorem mergeAcroForms_writes_form_keys_only
  (k : string) (ctxSource ctxDest : Context) (h : Heap) (d : Dict) :
  k ∉ ["AcroForm"; "Fields"; "NeedAppearances"; "SigFields"; "CO"; "DR";
       "DA"; "Q"; "XFA"] ->
  entries (snd (mergeAcroForms ctxSource ctxDest h)) d !! k
  = entries h d !! k.
Proof.
  intros Hk. rewrite !not_elem_of_cons in Hk.
  destruct Hk as (? & ? & ? & ? & ? & ? & ? & ? & ? & _).
  unfold mergeAcroForms.
  repeat case_match; try reflexivity;
    try (apply (keeps_assign_ret k "AcroForm"); congruence).
  apply (keeps_bind k (assign _ "Fields" _)
           (fun _ => handleFormAttributes _ _ _ _ _)).
  - apply keeps_assign. congruence.
  - intros _. apply handleFormAttributes_keeps.
    rewrite !not_elem_of_cons. repeat split; try congruence.
    apply not_elem_of_nil.
Qed.

Lemma mergeAcroForms_writes_form_keys_only_witness :
  entries (snd (mergeAcroForms (srcDoc ∅ false) (destDoc ∅ false)
                  scenarioHeap)) dF2 !! "T"
  = entries scenarioHeap dF2 !! "T".
Proof.
  apply (mergeAcroForms_writes_form_keys_only "T").
  rewrite !not_elem_of_cons. repeat split; try discriminate.
  apply not_elem_of_nil.
Defined.

(** ** Form Merger: NeedAppearances, SigFlags and CO *)

(** X5: a source [NeedAppearances] that resolves to true is stored as
    [Boolean true] in the destination form, and the handler returns nil. *)
Theorem handleNeedAppearances_forces_true
  (ctxSource : Context) (dSrc : Dict) (l : loc) (h : Heap) (o : Object) :
  Find h dSrc "NeedAppearances" = (o, true) ->
  DereferenceBoolean ctxSource o = (Some true, None) ->
  let r := handleNeedAppearances ctxSource dSrc (Some l) h in
  fst r = Ret None /\
  Find (snd r) (Some l) "NeedAppearances" = (Boolean true, true).
Proof.
  intros H1 H2. unfold handleNeedAppearances. rewrite H1. cbn [negb orb].
  assert (Ho : match o with Null => true | _ => false end = false).
  { destruct o; try reflexivity. discriminate H2. }
  rewrite Ho, H2. cbn [isErr]. unfold bind. cbn [assign fst snd ret].
  split; [reflexivity|].
  rewrite Find_lookup, entries_insert_eq. by rewrite lookup_insert_eq.
Qed.

Lemma handleNeedAppearances_forces_true_witness :
  Find (snd (handleNeedAppearances (srcDoc ∅ false) dSrcForm dDestForm
               (attrHeap ∅ {[ "NeedAppearances" := Boolean true ]} ∅)))
       dDestForm "NeedAppearances"
  = (Boolean true, true).
Proof.
  apply (handleNeedAppearances_forces_true (srcDoc ∅ false) dSrcForm
           2%positive _ (Boolean true)).
  - vm_compute. reflexivity.
  - reflexivity.
Defined.

(** X6: handleNeedAppearances never clears and never sets false: after
    it, whatever its outcome, the [NeedAppearances] entry of every
    dictionary is as before or is [Boolean true]. *)
Theorem handleNeedAppearances_only_sets_true
  (ctxSource : Context) (dSrc dDest : Dict) (h : Heap) (d : Dict) :
  let h' := snd (handleNeedAppearances ctxSource dSrc dDest h) in
  entries h' d !! "NeedAppearances" = entries h d !! "NeedAppearances" \/
  entries h' d !! "NeedAppearances" = Some (Boolean true).
Proof.
  cbn zeta. unfold handleNeedAppearances.
  repeat case_match; try (left; reflexivity).
  all: unfold bind; destruct dDest as [l|]; [|left; reflexivity].
  all: cbn [assign snd ret].
  all: destruct (decide (d = Some l)) as [->|Hne];
    [right; rewrite entries_insert_eq; by rewrite lookup_insert_eq|].
  all: left; destruct d as [l'|]; [|reflexivity].
  all: rewrite entries_insert_ne; [reflexivity|congruence].
Qed.

(** X7: handleSigFields never updates a [SigFlags] entry: in every
    dictionary it is as before, whatever the two forms hold. *)
Theorem handleSigFields_never_updates_SigFlags
  (ctxSource ctxDest : Context) (dSrc dDest : Dict) (h : Heap) (d : Dict) :
  entries (snd (handleSigFields ctxSource ctxDest dSrc dDest h)) d
  !! "SigFlags"
  = entries h d !! "SigFlags".
Proof. apply handleSigFields_keeps. discriminate. Qed.

(** X8: when the source [CO] resolves to an array, the destination form
    ends with its own [CO] entries (none if it has no [CO]) followed by
    the source's, in order, and the handler returns nil. *)
Theorem handleCO_appends
  (ctxSource ctxDest : Context) (dSrc : Dict) (l : loc) (h : Heap)
  (oSrc : Object) (arrSrc arrDest : Array) :
  Find h dSrc "CO" = (oSrc, true) ->
  DereferenceArray ctxSource oSrc = (arrSrc, None) ->
  match Find h (Some l) "CO" with
  | (oDest, true) => DereferenceArray ctxDest oDest = (arrDest, None)
  | (_, false) => arrDest = []
  end ->
  let r := handleCO ctxSource ctxDest dSrc (Some l) h in
  fst r = Ret None /\
  Find (snd r) (Some l) "CO" = (OfArray (arrDest ++ arrSrc), true).
Proof.
  intros H1 H2 H3. unfold handleCO. rewrite H1. cbn [negb]. rewrite H2.
  cbn [isErr].
  assert (Hset : forall arr,
            let r := (assign (Some l) "CO" (OfArray arr) ;; ret None) h in
            fst r = Ret (@None Err) /\
            Find (snd r) (Some l) "CO" = (OfArray arr, true)).
  { intros arr. unfold bind. cbn [assign fst snd ret]. split; [reflexivity|].
    rewrite Find_lookup, entries_insert_eq. by rewrite lookup_insert_eq. }
  destruct (Find h (Some l) "CO") as [oDest []]; cbn [negb].
  - rewrite H3. cbn [isErr]. destruct arrDest as [|x rest]; apply Hset.
  - subst arrDest. apply Hset.
Qed.

Lemma handleCO_appends_witness :
  Find (snd (handleCO (srcDoc ∅ false) (destDoc ∅ false) dSrcForm dDestForm
               (attrHeap {[ "CO" := OfArray [f1] ]}
                         {[ "CO" := OfArray [f2] ]} ∅)))
       dDestForm "CO"
  = (OfArray ([f1] ++ [f2]), true).
Proof.
  apply (handleCO_appends (srcDoc ∅ false) (destDoc ∅ false) dSrcForm
           2%positive _ (OfArray [f2]) [f2] [f1]).
  - vm_compute. reflexivity.
  - reflexivity.
  - vm_compute. reflexivity.
Defined.

(** ** Form Merger: default resources *)

(** X9: a destination form whose [DR] resolves to a non-empty dictionary
    is not changed by handleDR, and neither is any other dictionary,
    whatever the source holds. *)
Theorem handleDR_keeps_nonempty_DR
  (ctxSource ctxDest : Context) (dSrc dDest : Dict) (h : Heap)
  (oDest : Object) (drDest : Dict) :
  Find h dDest "DR" = (oDest, true) ->
  DereferenceDict ctxDest oDest = (drDest, None) ->
  Nat.eqb (len h drDest) 0 = false ->
  snd (handleDR ctxSource ctxDest dSrc dDest h) = h.
Proof. apply handleDR_nonempty_untouched. Qed.

Lemma handleDR_keeps_nonempty_DR_witness :
  let h := attrHeap {[ "DR" := OfDict (Some 4%positive) ]}
                    {[ "DR" := OfDict (Some 14%positive) ]}
                    {[ 4%positive := {[ "Font" := Name "Cour" ]};
                       14%positive := {[ "Font" := Name "Helv" ]} ]} in
  snd (handleDR (srcDoc ∅ false) (destDoc ∅ false) dSrcForm dDestForm h) = h.
Proof.
  cbn zeta.
  apply (handleDR_keeps_nonempty_DR (srcDoc ∅ false) (destDoc ∅ false)
           dSrcForm dDestForm _ (OfDict (Some 4%positive)) (Some 4%positive)).
  - vm_compute. reflexivity.
  - reflexivity.
  - vm_compute. reflexivity.
Defined.

(** X10: a destination form without [DR] gets the source's [DR]
    dictionary, when that resolves to a non-empty dictionary; the handler
    returns nil. *)
Theorem handleDR_fills_missing_DR
  (ctxSource ctxDest : Context) (dSrc : Dict) (l : loc) (h : Heap)
  (oSrc : Object) (drSrc : Dict) :
  Find h dSrc "DR" = (oSrc, true) ->
  DereferenceDict ctxSource oSrc = (drSrc, None) ->
  Nat.eqb (len h drSrc) 0 = false ->
  snd (Find h (Some l) "DR") = false ->
  let r := handleDR ctxSource ctxDest dSrc (Some l) h in
  fst r = Ret None /\ Find (snd r) (Some l) "DR" = (OfDict drSrc, true).
Proof.
  intros H1 H2 H3 H4. cbn zeta.
  rewrite (handleDR_adopts _ _ _ _ _ _ _ H1 H2 H3 H4).
  unfold bind. cbn [assign fst snd ret]. split; [reflexivity|].
  rewrite Find_lookup, entries_insert_eq. by rewrite lookup_insert_eq.
Qed.

Lemma handleDR_fills_missing_DR_witness :
  let h := attrHeap ∅ {[ "DR" := OfDict (Some 14%positive) ]}
                    {[ 14%positive := {[ "Font" := Name "Helv" ]} ]} in
  Find (snd (handleDR (srcDoc ∅ false) (destDoc ∅ false) dSrcForm
               dDestForm h)) dDestForm "DR"
  = (OfDict (Some 14%positive), true).
Proof.
  cbn zeta.
  apply (handleDR_fills_missing_DR (srcDoc ∅ false) (destDoc ∅ false)
           dSrcForm 2%positive _ (OfDict (Some 14%positive))
           (Some 14%positive)).
  - vm_compute. reflexivity.
  - reflexivity.
  - vm_compute. reflexivity.
  - vm_compute. reflexivity.
Defined.

(** X11: handleDR panics, with nothing changed, when the source has a
    non-empty [DR] and the destination's [DR] entry resolves to no
    dictionary at all (the null object, as for a reference without table
    entry that the engine resolves to null): the assignment goes to a
    nil map. *)
Theorem handleDR_panics_on_null_DR
  (ctxSource ctxDest : Context) (dSrc dDest : Dict) (h : Heap)
  (oSrc oDest : Object) (drSrc : Dict) :
  Find h dSrc "DR" = (oSrc, true) ->
  DereferenceDict ctxSource oSrc = (drSrc, None) ->
  Nat.eqb (len h drSrc) 0 = false ->
  Find h dDest "DR" = (oDest, true) ->
  DereferenceDict ctxDest oDest = (None, None) ->
  handleDR ctxSource ctxDest dSrc dDest h = (Panic, h).
Proof.
  intros H1 H2 H3 H4 H5.
  rewrite (handleDR_empty_writes_inside _ _ _ _ _ _ _ _ _ H1 H2 H3 H4 H5).
  - reflexivity.
  - unfold len. rewrite entries_nil, map_size_empty. reflexivity.
Qed.

Lemma handleDR_panics_on_null_DR_witness :
  let h := attrHeap {[ "DR" := OfIndirectRef (mkIndirectRef 7 0) ]}
                    {[ "DR" := OfDict (Some 14%positive) ]}
                    {[ 14%positive := {[ "Font" := Name "Helv" ]} ]} in
  handleDR (srcDoc ∅ false) (destDoc ∅ false) dSrcForm dDestForm h
  = (Panic, h).
Proof.
  cbn zeta.
  apply (handleDR_panics_on_null_DR (srcDoc ∅ false) (destDoc ∅ false)
           dSrcForm dDestForm _ (OfDict (Some 14%positive))
           (OfIndirectRef (mkIndirectRef 7 0)) (Some 14%positive)).
  - vm_compute. reflexivity.
  - reflexivity.
  - vm_compute. reflexivity.
  - vm_compute. reflexivity.
  - reflexivity.
Defined.

(** ** Form Merger: default appearance and quadding *)

(** X12: the [DA] string of a destination form that has one is the same
    after handleDA, whatever the source holds and whatever the outcome. *)
Theorem handleDA_keeps_destination_DA
  (ctxSource : Context) (dSrc dDest : Dict) (arrFieldsSrc : Array)
  (h : Heap) (sDest : string) :
  StringEntry h dDest "DA" = Some sDest ->
  StringEntry (snd (handleDA ctxSource dSrc dDest arrFieldsSrc h)) dDest "DA"
  = Some sDest.
Proof. apply handleDA_first_wins. Qed.

Lemma handleDA_keeps_destination_DA_witness :
  StringEntry (snd (handleDA (srcDoc ∅ false) dSrcForm dDestForm [f2]
                      scenarioHeap)) dDestForm "DA"
  = Some "/Helv 0 Tf 0 g".
Proof.
  apply (handleDA_keeps_destination_DA (srcDoc ∅ false) dSrcForm dDestForm
           [f2] scenarioHeap "/Helv 0 Tf 0 g").
  vm_compute. reflexivity.
Defined.

Lemma NameEntry_assign_ne (d d' : Dict) (key k : string) (v : Object)
  (h : Heap) :
  key ≠ k ->
  NameEntry (snd (assign d key v h)) d' k = NameEntry h d' k.
Proof.
  intros Hk. unfold NameEntry. rewrite !Find_lookup.
  by rewrite lookup_assign_ne.
Qed.

Lemma NameEntry_Some_loc (h : Heap) (d : Dict) (k n : string) :
  NameEntry h d k = Some n -> exists l, d = Some l.
Proof.
  destruct d as [l|]; [eauto|]. discriminate.
Qed.

(** The push-down of [DA], when it returns nil: every text field of the
    array has a [DA] afterwards, its own if it had one. *)
Lemma handleDA_fields_pushes (ctxSource : Context) (sSrc : string)
  (arrFieldsSrc : Array) :
  forall (h h' : Heap),
  handleDA_fields ctxSource sSrc arrFieldsSrc h = (Ret None, h') ->
  forall (o : Object) (d : Dict),
  In o arrFieldsSrc ->
  DereferenceDict ctxSource o = (d, None) ->
  NameEntry h d "FT" = Some "Tx" ->
  entries h' d !! "DA"
  = Some (default (StringLiteral sSrc) (entries h d !! "DA")).
Proof.
  induction arrFieldsSrc as [|o0 rest IH]; intros h h' Hrun o d Hin Hd Hft;
    [destruct Hin|].
  cbn [handleDA_fields] in Hrun.
  destruct (DereferenceDict ctxSource o0) as [d0 [e|]] eqn:Hd0;
    [discriminate Hrun|].
  cbn [isErr] in Hrun.
  (* the heap after the turn for [o0] *)
  assert (Hturn : exists h1,
            handleDA_fields ctxSource sSrc rest h1 = (Ret None, h') /\
            (forall d', NameEntry h1 d' "FT" = NameEntry h d' "FT") /\
            (forall d', entries h1 d' !! "DA"
                        = match entries h d' !! "DA" with
                          | Some v => Some v
                          | None =>
                              if decide (d' = d0 /\
                                         NameEntry h d0 "FT" = Some "Tx")
                              then Some (StringLiteral sSrc) else None
                          end)).
  { destruct (NameEntry h d0 "FT") as [n|] eqn:Hn.
    2:{ exists h. split; [by destruct (NameEntry h d0 "FT")|].
        split; [done|]. intros d'. destruct (entries h d' !! "DA"); [done|].
        case_decide as Hc; [destruct Hc; congruence|done]. }
    destruct (decide (n = "Tx")) as [->|Hn'].
    2:{ exists h. split.
        { revert Hrun. clear -Hn'. repeat case_match; congruence. }
        split; [done|]. intros d'. destruct (entries h d' !! "DA"); [done|].
        case_decide as Hc; [destruct Hc; congruence|done]. }
    destruct (NameEntry_Some_loc _ _ _ _ Hn) as [l0 ->].
    rewrite Find_lookup in Hrun.
    destruct (entries h (Some l0) !! "DA") as [v0|] eqn:Hda0;
      cbn [negb] in Hrun.
    - exists h. split; [exact Hrun|]. split; [done|].
      intros d'. destruct (entries h d' !! "DA") eqn:Hd'; [done|].
      case_decide as Hc; [destruct Hc; congruence|done].
    - unfold bind in Hrun. cbn [assign] in Hrun.
      exists (snd (assign (Some l0) "DA" (StringLiteral sSrc) h)).
      split; [exact Hrun|]. split.
      + intros d'. by apply NameEntry_assign_ne.
      + intros d'. destruct (decide (d' = Some l0)) as [->|Hne].
        * rewrite lookup_assign_eq, Hda0. by rewrite decide_True.
        * rewrite lookup_assign_other by done.
          destruct (entries h d' !! "DA"); [done|].
          case_decide as Hc; [destruct Hc; congruence|done]. }
  destruct Hturn as (h1 & Hrest & Hft1 & Hda1).
  destruct Hin as [->|Hin].
  - (* the field of this turn *)
    rewrite Hd0 in Hd. simplify_eq.
    pose proof (handleDA_fields_keeps_present ctxSource sSrc rest h1 d) as Hk.
    rewrite Hrest in Hk. cbn [snd] in Hk. apply Hk.
    rewrite Hda1. destruct (entries h d !! "DA"); [done|].
    by rewrite decide_True.
  - (* a later field *)
    rewrite (IH h1 h' Hrest o d Hin Hd) by (by rewrite Hft1).
    rewrite Hda1. destruct (entries h d !! "DA"); [done|].
    destruct (decide (d = d0 /\ NameEntry h d0 "FT" = Some "Tx"));
      reflexivity.
Qed.

(** X13: when the destination form has a [DA] and handleDA returns nil,
    every source field that is a text field ([FT] = Tx) has a [DA]
    afterwards: its own if it had one, the source form's otherwise. *)
Theorem handleDA_pushes_down
  (ctxSource : Context) (dSrc dDest : Dict) (arrFieldsSrc : Array)
  (h h' : Heap) (sSrc sDest : string) (o : Object) (d : Dict) :
  StringEntry h dSrc "DA" = Some sSrc ->
  StringEntry h dDest "DA" = Some sDest ->
  handleDA ctxSource dSrc dDest arrFieldsSrc h = (Ret None, h') ->
  In o arrFieldsSrc ->
  DereferenceDict ctxSource o = (d, None) ->
  NameEntry h d "FT" = Some "Tx" ->
  Nat.eqb (String.length sSrc) 0 = false ->
  entries h' d !! "DA"
  = Some (default (StringLiteral sSrc) (entries h d !! "DA")).
Proof.
  intros Hs Hdest Hrun Hin Hd Hft Hlen. unfold handleDA in Hrun.
  rewrite Hs, Hlen, Hdest in Hrun.
  by eapply handleDA_fields_pushes.
Qed.

Lemma handleDA_pushes_down_witness :
  entries (snd (handleDA (srcDoc ∅ false) dSrcForm dDestForm [f2]
                  scenarioHeap)) dF2 !! "DA"
  = Some (StringLiteral "/Cour 0 Tf 0 g").
Proof.
  apply (handleDA_pushes_down (srcDoc ∅ false) dSrcForm dDestForm [f2]
           scenarioHeap _ "/Cour 0 Tf 0 g" "/Helv 0 Tf 0 g" f2 dF2).
  - vm_compute. reflexivity.
  - vm_compute. reflexivity.
  - vm_compute. reflexivity.
  - left. reflexivity.
  - reflexivity.
  - vm_compute. reflexivity.
  - reflexivity.
Defined.

(** X14: the integer [Q] of a destination form that has one is the same
    after handleQ, whatever the source holds and whatever the outcome. *)
Theorem handleQ_keeps_destination_Q
  (ctxSource : Context) (dSrc dDest : Dict) (arrFieldsSrc : Array)
  (h : Heap) (iDest : Z) :
  IntEntry h dDest "Q" = Some iDest ->
  IntEntry (snd (handleQ ctxSource dSrc dDest arrFieldsSrc h)) dDest "Q"
  = Some iDest.
Proof. apply handleQ_first_wins. Qed.

Lemma handleQ_keeps_destination_Q_witness :
  let h := attrHeap {[ "Q" := Integer 0 ]} {[ "Q" := Integer 2 ]} ∅ in
  IntEntry (snd (handleQ (srcDoc ∅ false) dSrcForm dDestForm [f2] h))
           dDestForm "Q"
  = Some 0%Z.
Proof.
  cbn zeta.
  apply (handleQ_keeps_destination_Q (srcDoc ∅ false) dSrcForm dDestForm
           [f2] _ 0).
  vm_compute. reflexivity.
Defined.

(** The push-down of [Q], when it returns nil: every text field of the
    array has a [Q] afterwards, its own if it had one. *)
Lemma handleQ_fields_pushes (ctxSource : Context) (iSrc : Z)
  (arrFieldsSrc : Array) :
  forall (h h' : Heap),
  handleQ_fields ctxSource iSrc arrFieldsSrc h = (Ret None, h') ->
  forall (o : Object) (d : Dict),
  In o arrFieldsSrc ->
  DereferenceDict ctxSource o = (d, None) ->
  NameEntry h d "FT" = Some "Tx" ->
  entries h' d !! "Q"
  = Some (default (Integer iSrc) (entries h d !! "Q")).
Proof.
  induction arrFieldsSrc as [|o0 rest IH]; intros h h' Hrun o d Hin Hd Hft;
    [destruct Hin|].
  cbn [handleQ_fields] in Hrun.
  destruct (DereferenceDict ctxSource o0) as [d0 [e|]] eqn:Hd0;
    [discriminate Hrun|].
  cbn [isErr] in Hrun.
  (* the heap after the turn for [o0] *)
  assert (Hturn : exists h1,
            handleQ_fields ctxSource iSrc rest h1 = (Ret None, h') /\
            (forall d', NameEntry h1 d' "FT" = NameEntry h d' "FT") /\
            (forall d', entries h1 d' !! "Q"
                        = match entries h d' !! "Q" with
                          | Some v => Some v
                          | None =>
                              if decide (d' = d0 /\
                                         NameEntry h d0 "FT" = Some "Tx")
                              then Some (Integer iSrc) else None
                          end)).
  { destruct (NameEntry h d0 "FT") as [n|] eqn:Hn.
    2:{ exists h. split; [by destruct (NameEntry h d0 "FT")|].
        split; [done|]. intros d'. destruct (entries h d' !! "Q"); [done|].
        case_decide as Hc; [destruct Hc; congruence|done]. }
    destruct (decide (n = "Tx")) as [->|Hn'].
    2:{ exists h. split.
        { revert Hrun. clear -Hn'. repeat case_match; congruence. }
        split; [done|]. intros d'. destruct (entries h d' !! "Q"); [done|].
        case_decide as Hc; [destruct Hc; congruence|done]. }
    destruct (NameEntry_Some_loc _ _ _ _ Hn) as [l0 ->].
    rewrite Find_lookup in Hrun.
    destruct (entries h (Some l0) !! "Q") as [v0|] eqn:Hda0;
      cbn [negb] in Hrun.
    - exists h. split; [exact Hrun|]. split; [done|].
      intros d'. destruct (entries h d' !! "Q") eqn:Hd'; [done|].
      case_decide as Hc; [destruct Hc; congruence|done].
    - unfold bind in Hrun. cbn [assign] in Hrun.
      exists (snd (assign (Some l0) "Q" (Integer iSrc) h)).
      split; [exact Hrun|]. split.
      + intros d'. by apply NameEntry_assign_ne.
      + intros d'. destruct (decide (d' = Some l0)) as [->|Hne].
        * rewrite lookup_assign_eq, Hda0. by rewrite decide_True.
        * rewrite lookup_assign_other by done.
          destruct (entries h d' !! "Q"); [done|].
          case_decide as Hc; [destruct Hc; congruence|done]. }
  destruct Hturn as (h1 & Hrest & Hft1 & Hda1).
  destruct Hin as [->|Hin].
  - (* the field of this turn *)
    rewrite Hd0 in Hd. simplify_eq.
    pose proof (handleQ_fields_keeps_present ctxSource iSrc rest h1 d) as Hk.
    rewrite Hrest in Hk. cbn [snd] in Hk. apply Hk.
    rewrite Hda1. destruct (entries h d !! "Q"); [done|].
    by rewrite decide_True.
  - (* a later field *)
    rewrite (IH h1 h' Hrest o d Hin Hd) by (by rewrite Hft1).
    rewrite Hda1. destruct (entries h d !! "Q"); [done|].
    destruct (decide (d = d0 /\ NameEntry h d0 "FT" = Some "Tx"));
      reflexivity.
Qed.

(** X15: when the destination form has an integer [Q] and handleQ
    returns nil, every source field that is a text field ([FT] = Tx) has
    a [Q] afterwards: its own if it had one, the source form's otherwise. *)
Theorem handleQ_pushes_down
  (ctxSource : Context) (dSrc dDest : Dict) (arrFieldsSrc : Array)
  (h h' : Heap) (iSrc iDest : Z) (o : Object) (d : Dict) :
  IntEntry h dSrc "Q" = Some iSrc ->
  IntEntry h dDest "Q" = Some iDest ->
  handleQ ctxSource dSrc dDest arrFieldsSrc h = (Ret None, h') ->
  In o arrFieldsSrc ->
  DereferenceDict ctxSource o = (d, None) ->
  NameEntry h d "FT" = Some "Tx" ->
  entries h' d !! "Q" = Some (default (Integer iSrc) (entries h d !! "Q")).
Proof.
  intros Hs Hdest Hrun Hin Hd Hft. unfold handleQ in Hrun.
  rewrite Hs, Hdest in Hrun.
  by eapply handleQ_fields_pushes.
Qed.

Lemma handleQ_pushes_down_witness :
  let h := attrHeap {[ "Q" := Integer 0 ]} {[ "Q" := Integer 2 ]} ∅ in
  entries (snd (handleQ (srcDoc ∅ false) dSrcForm dDestForm [f2] h)) dF2
  !! "Q"
  = Some (Integer 2).
Proof.
  cbn zeta.
  rewrite (handleQ_pushes_down (srcDoc ∅ false) dSrcForm dDestForm [f2]
             (attrHeap {[ "Q" := Integer 0 ]} {[ "Q" := Integer 2 ]} ∅)
             _ 2 0 f2 dF2).
  - vm_compute. reflexivity.
  - vm_compute. reflexivity.
  - vm_compute. reflexivity.
  - vm_compute. reflexivity.
  - left. reflexivity.
  - reflexivity.
  - vm_compute. reflexivity.
Defined.

(** The push-down of [DA] writes to text fields only. *)
Lemma handleDA_fields_only_text (ctxSource : Context) (sSrc : string)
  (arrFieldsSrc : Array) :
  forall (h : Heap) (d : Dict),
  NameEntry h d "FT" <> Some "Tx" ->
  entries (snd (handleDA_fields ctxSource sSrc arrFieldsSrc h)) d
  = entries h d.
Proof.
  induction arrFieldsSrc as [|o0 rest IH]; intros h d Hd; [reflexivity|].
  cbn [handleDA_fields].
  destruct (DereferenceDict ctxSource o0) as [d0 [e|]]; [reflexivity|].
  cbn [isErr].
  destruct (NameEntry h d0 "FT") as [n|] eqn:Hn; [|by apply IH].
  destruct (decide (n = "Tx")) as [->|Hn'].
  2:{ transitivity (entries (snd (handleDA_fields ctxSource sSrc rest h)) d);
        [|by apply IH].
      clear -Hn'. repeat case_match; congruence. }
  destruct (NameEntry_Some_loc _ _ _ _ Hn) as [l0 ->].
  destruct (Find h (Some l0) "DA") as [v []]; cbn [negb]; [by apply IH|].
  unfold bind. cbn [assign].
  assert (Hne : d <> Some l0) by congruence.
  rewrite IH.
  - destruct d as [l|]; [|reflexivity].
    apply entries_insert_ne. congruence.
  - replace (<[l0 := <["DA" := StringLiteral sSrc]> (entries h (Some l0))]> h)
      with (snd (assign (Some l0) "DA" (StringLiteral sSrc) h))
      by reflexivity.
    by rewrite NameEntry_assign_ne.
Qed.

(** X16: handleDA writes to the destination form and to text fields
    only: any other dictionary has all its entries as before, whatever
    the outcome. *)
Theorem handleDA_writes_destination_and_text_fields_only
  (ctxSource : Context) (dSrc dDest : Dict) (arrFieldsSrc : Array)
  (h : Heap) (d : Dict) :
  d <> dDest ->
  NameEntry h d "FT" <> Some "Tx" ->
  entries (snd (handleDA ctxSource dSrc dDest arrFieldsSrc h)) d
  = entries h d.
Proof.
  intros Hne Hft. unfold handleDA.
  destruct (StringEntry h dSrc "DA") as [sSrc|]; [|reflexivity].
  destruct (Nat.eqb (String.length sSrc) 0); [reflexivity|].
  destruct (StringEntry h dDest "DA").
  - by apply handleDA_fields_only_text.
  - unfold bind. destruct dDest as [l|]; [|reflexivity].
    cbn [assign snd ret]. destruct d as [l'|]; [|reflexivity].
    apply entries_insert_ne. congruence.
Qed.

Lemma handleDA_writes_destination_and_text_fields_only_witness :
  entries (snd (handleDA (srcDoc ∅ false) dSrcForm dDestForm [f2]
                  scenarioHeap)) dSrcForm
  = entries scenarioHeap dSrcForm.
Proof.
  apply (handleDA_writes_destination_and_text_fields_only
           (srcDoc ∅ false) dSrcForm dDestForm [f2] scenarioHeap dSrcForm).
  - discriminate.
  - vm_compute. discriminate.
Defined.

(** ** Form Merger: the attribute rules as a whole *)

Lemma orReturn_failure_keeps (k : string) (f g : M Heap error) :
  keeps k f ->
  (forall h r h', g h = (r, h') -> r <> Ret None ->
     forall d, entries h' d !! k = entries h d !! k) ->
  forall h r h', orReturn f g h = (r, h') -> r <> Ret None ->
    forall d, entries h' d !! k = entries h d !! k.
Proof.
  intros Hf Hg h r h' Hrun Hr d. unfold orReturn, bind in Hrun.
  specialize (Hf h d).
  destruct (f h) as [[[e|]|] h1]; cbn [snd isErr] in *.
  - unfold ret in Hrun. by simplify_eq.
  - rewrite <- Hf. by eapply Hg.
  - by simplify_eq.
Qed.

(** X17: handleFormAttributes deletes [XFA] only when all six attribute
    rules returned nil: if it ends with an error or a panic, the [XFA]
    entry of every dictionary is as before. *)
Theorem handleFormAttributes_failure_keeps_XFA
  (ctxSource ctxDest : Context) (dSrc dDest : Dict) (arrFieldsSrc : Array)
  (h h' : Heap) (r : Outcome error) (d : Dict) :
  handleFormAttributes ctxSource ctxDest dSrc dDest arrFieldsSrc h = (r, h') ->
  r <> Ret None ->
  entries h' d !! "XFA" = entries h d !! "XFA".
Proof.
  intros Hrun Hr. revert h r h' Hrun Hr d. unfold handleFormAttributes.
  apply orReturn_failure_keeps;
    [by apply handleNeedAppearances_keeps|].
  apply orReturn_failure_keeps; [by apply handleSigFields_keeps|].
  apply orReturn_failure_keeps; [by apply handleCO_keeps|].
  apply orReturn_failure_keeps; [by apply handleDR_keeps|].
  apply orReturn_failure_keeps; [by apply handleDA_keeps|].
  apply orReturn_failure_keeps; [by apply handleQ_keeps|].
  intros h r h' Hrun Hr. unfold bind, delete_key, ret in Hrun.
  destruct dDest; by simplify_eq.
Qed.

Lemma handleFormAttributes_failure_keeps_XFA_witness :
  let h := attrHeap {[ "XFA" := StringLiteral "<xdp/>" ]}
                    {[ "CO" := Name "x" ]} ∅ in
  entries (snd (handleFormAttributes (srcDoc ∅ false) (destDoc ∅ false)
                  dSrcForm dDestForm [f2] h)) dDestForm !! "XFA"
  = entries h dDestForm !! "XFA".
Proof.
  cbn zeta.
  apply (handleFormAttributes_failure_keeps_XFA
           (srcDoc ∅ false) (destDoc ∅ false) dSrcForm dDestForm [f2]
           _ _ (Ret (Some WrongType))).
  - vm_compute. reflexivity.
  - discriminate.
Defined.

(** ** Field Scraper: what getAcro and scrape leave alone *)

Lemma getAcro_fields_keeps (k : string) (ctx : Context) (idx : nat)
  (fields : Array) :
  k <> "V" ->
  forall (i : nat) (acro_fields : list string) (w : World) (d : Dict),
  entries (heap (snd (getAcro_fields ctx idx i fields acro_fields w))) d !! k
  = entries (heap w) d !! k.
Proof.
  intros Hk. induction fields as [|o rest IH]; intros i acro_fields w d;
    [reflexivity|].
  destruct (fieldName ctx (heap w) o) as [[d0 n]|] eqn:Ho.
  - rewrite (getAcro_fields_step _ _ _ _ _ _ _ _ _ Ho), IH. cbn [heap].
    unfold Update. apply lookup_assign_ne. congruence.
  - unfold fieldName in Ho. cbn [getAcro_fields].
    destruct o; try reflexivity.
    destruct (FindTableEntryForIndRef ctx ir) as [[]|]; try reflexivity.
    destruct (StringEntry (heap w) d0 "T"); [discriminate Ho|reflexivity].
Qed.

Lemma getAcro_keeps (k : string) (idx : nat) (source : File)
  (acro_fields : list string) (w : World) (d : Dict) :
  k <> "V" ->
  entries (heap (snd (getAcro idx source acro_fields w))) d !! k
  = entries (heap w) d !! k.
Proof.
  intros Hk. unfold getAcro.
  destruct (ReadContext source) as [ctx|e]; [|reflexivity].
  destruct (Catalog ctx) as [cat [e|]]; [reflexivity|].
  destruct (Find (heap w) cat "AcroForm") as [acroform []]; cbn [negb];
    [|reflexivity].
  destruct (DereferenceDict ctx acroform) as [adict [e|]]; [reflexivity|].
  unfold bind.
  pose proof (getAcro_fields_keeps k ctx idx
                (ArrayEntry (heap w) adict "Fields") Hk 0 acro_fields w d)
    as Hloop.
  destruct (getAcro_fields ctx idx 0 (ArrayEntry (heap w) adict "Fields")
              acro_fields w) as [[[[r|] acc]|] w1]; exact Hloop.
Qed.

Lemma scrape_files_keeps (k : string) (fs : FileSystem)
  (files_list : list string) :
  k <> "V" ->
  forall (idx : nat) (acro_fields : list string) (w : World) (d : Dict),
  entries (heap (snd (scrape_files fs idx files_list acro_fields w))) d !! k
  = entries (heap w) d !! k.
Proof.
  intros Hk.
  induction files_list as [|f rest IH]; intros idx acro_fields w d;
    [reflexivity|].
  cbn [scrape_files]. destruct (fs f) as [source|e].
  - destruct (Validate source) as [e|].
    + unfold bind, errorHandler, sendResponse, emit. simpl. by rewrite IH.
    + unfold bind.
      pose proof (getAcro_keeps k idx source acro_fields w d Hk) as Hg.
      destruct (getAcro idx source acro_fields w) as [[[res acc]|] w1];
        [|exact Hg].
      cbn [snd] in Hg. destruct (res =? 0)%Z; by rewrite IH.
  - unfold bind, errorHandler, sendResponse, emit. simpl. by rewrite IH.
Qed.

Lemma scrape_keeps (k : string) (fs : FileSystem)
  (file_dict : gmap string JSON) (w : World) (d : Dict) :
  k <> "V" ->
  entries (heap (snd (scrape fs file_dict w))) d !! k
  = entries (heap w) d !! k.
Proof.
  intros Hk. unfold scrape.
  destruct (file_dict !! "files") as [[s|files_interface|]|]; try reflexivity.
  destruct (asStrings files_interface); [|reflexivity].
  by apply scrape_files_keeps.
Qed.

(** X18: scraping changes [V] entries only: after scrape, whatever its
    outcome, every entry under another key (the [T] names, the [Fields]
    arrays, the catalogs) is as before, in every dictionary. *)
Theorem scrape_changes_V_entries_only (k : string) (fs : FileSystem)
  (file_dict : gmap string JSON) (w : World) (d : Dict) :
  k <> "V" ->
  entries (heap (snd (scrape fs file_dict w))) d !! k
  = entries (heap w) d !! k.
Proof. apply scrape_keeps. Qed.

Lemma scrape_changes_V_entries_only_witness :
  entries (heap (snd (scrape (oneFile false) twoFilesRequest
                        (startWorld [f1])))) (Some 3%positive) !! "T"
  = entries (heap (startWorld [f1])) (Some 3%positive) !! "T".
Proof.
  apply (scrape_changes_V_entries_only "T"). discriminate.
Defined.

(** ** Field Scraper: return code and events of getAcro *)

Lemma getAcro_fields_events (ctx : Context) (idx : nat) (fields : Array) :
  forall (i : nat) (acro_fields : list string) (w : World)
         (r : option Z) (acro_fields' : list string) (w' : World),
  getAcro_fields ctx idx i fields acro_fields w = (Ret (r, acro_fields'), w') ->
  match r with
  | None => trace w' = trace w
  | Some res =>
      res = 0%Z /\
      exists ev, trace w' = trace w ++ [ev] /\
                 forall c DirName FileName, ev <> Written c DirName FileName
  end.
Proof.
  induction fields as [|o rest IH]; intros i acro_fields w r acro_fields' w' H.
  - cbn in H. unfold ret in H. by simplify_eq.
  - destruct (fieldName ctx (heap w) o) as [[d n]|] eqn:Ho.
    + rewrite (getAcro_fields_step _ _ _ _ _ _ _ _ _ Ho) in H.
      apply IH in H. exact H.
    + unfold fieldName in Ho. cbn [getAcro_fields] in H.
      destruct o; try (unfold panic in H; discriminate H).
      destruct (FindTableEntryForIndRef ctx ir) as [[]|];
        try (unfold bind, emit, ret in H; simplify_eq; cbn [trace];
             split; [reflexivity|]; eexists; split; [reflexivity|];
             intros; discriminate).
      destruct (StringEntry (heap w) d "T"); [discriminate Ho|].
      unfold bind, emit, ret in H. simplify_eq. cbn [trace].
      split; [reflexivity|]. eexists. split; [reflexivity|].
      intros; discriminate.
Qed.

(** X19: every call of getAcro that returns adds exactly one event: the
    serialisation of the document, under "." and "tezzting.pdf", when it
    returns 1, and one log line when it returns 0; it returns nothing
    else. *)
Theorem getAcro_one_event_per_call (idx : nat) (source : File)
  (acro_fields acro_fields' : list string) (w w' : World) (res : Z) :
  getAcro idx source acro_fields w = (Ret (res, acro_fields'), w') ->
  exists ev, trace w' = trace w ++ [ev] /\
    ((res = 1%Z /\ exists ctx, ev = Written ctx "." "tezzting.pdf") \/
     (res = 0%Z /\ forall c DirName FileName, ev <> Written c DirName FileName)).
Proof.
  unfold getAcro. intros H.
  assert (Hlog : forall ev,
            (emit ev ;; ret (0%Z, acro_fields)) w
            = (Ret (res, acro_fields'), w') ->
            (forall c DirName FileName, ev <> Written c DirName FileName) ->
            exists ev0, trace w' = trace w ++ [ev0] /\
              ((res = 1%Z /\ exists ctx, ev0 = Written ctx "." "tezzting.pdf") \/
               (res = 0%Z /\
                forall c DirName FileName, ev0 <> Written c DirName FileName))).
  { intros ev Hev Hnw. unfold bind, emit, ret in Hev. simplify_eq.
    exists ev. cbn [trace]. split; [reflexivity|]. right. by split. }
  destruct (ReadContext source) as [ctx|e];
    [|eapply Hlog; [exact H|intros; discriminate]].
  destruct (Catalog ctx) as [cat [e|]];
    [eapply Hlog; [exact H|intros; discriminate]|].
  destruct (Find (heap w) cat "AcroForm") as [acroform []]; cbn [negb] in H;
    [|eapply Hlog; [exact H|intros; discriminate]].
  destruct (DereferenceDict ctx acroform) as [adict [e|]];
    [eapply Hlog; [exact H|intros; discriminate]|].
  unfold bind in H.
  destruct (getAcro_fields ctx idx 0 (ArrayEntry (heap w) adict "Fields")
              acro_fields w) as [[[r acc]|] w1] eqn:Hloop; [|discriminate H].
  apply getAcro_fields_events in Hloop. destruct r as [r|].
  - destruct Hloop as (-> & ev & Htr & Hnw). unfold ret in H. simplify_eq.
    exists ev. split; [exact Htr|]. right. by split.
  - unfold emit, ret in H. simplify_eq. cbn [trace]. rewrite Hloop.
    eexists. split; [reflexivity|]. left. split; [reflexivity|]. by eexists.
Qed.

Lemma getAcro_one_event_per_call_witness :
  exists ev,
    trace (snd (getAcro 0 (destFile false) [] (startWorld [f1])))
    = trace (startWorld [f1]) ++ [ev] /\
    ((1%Z = 1%Z /\ exists ctx, ev = Written ctx "." "tezzting.pdf") \/
     (1%Z = 0%Z /\ forall c DirName FileName, ev <> Written c DirName FileName)).
Proof.
  apply (getAcro_one_event_per_call 0 (destFile false) [] ["a"]
           (startWorld [f1]) _ 1).
  vm_compute. reflexivity.
Defined.

(** ** Field Scraper: documents without a usable form, and malformed
    [Fields] *)

(** X20: when the document cannot be read, has no catalog, has no
    AcroForm or its AcroForm entry does not resolve to a dictionary,
    getAcro returns 0 with one log line: no name is added, no dictionary
    is touched and nothing is written. *)
Theorem getAcro_without_form (idx : nat) (source : File)
  (acro_fields : list string) (w : World) :
  match ReadContext source with
  | inl ctx => formFields (heap w) ctx = None
  | inr _ => True
  end ->
  exists ev,
    getAcro idx source acro_fields w
    = (Ret (0%Z, acro_fields),
       {| heap := heap w; trace := trace w ++ [ev] |}) /\
    forall c DirName FileName, ev <> Written c DirName FileName.
Proof.
  unfold getAcro, formFields. intros H.
  destruct (ReadContext source) as [ctx|e];
    [|eexists; split; [reflexivity|intros; discriminate]].
  destruct (Catalog ctx) as [cat [e|]];
    [eexists; split; [reflexivity|intros; discriminate]|].
  destruct (Find (heap w) cat "AcroForm") as [acroform []]; cbn [negb];
    [|eexists; split; [reflexivity|intros; discriminate]].
  destruct (DereferenceDict ctx acroform) as [adict [e|]];
    [eexists; split; [reflexivity|intros; discriminate]|].
  discriminate H.
Qed.

Lemma getAcro_without_form_witness :
  exists ev,
    getAcro 3 {| Validate := None; ReadContext := inl (srcDoc ∅ true) |}
      ["a"] {| heap := xfaHeap; trace := [] |}
    = (Ret (0%Z, ["a"]), {| heap := xfaHeap; trace := [] ++ [ev] |}) /\
    forall c DirName FileName, ev <> Written c DirName FileName.
Proof.
  apply (getAcro_without_form 3
           {| Validate := None; ReadContext := inl (srcDoc ∅ true) |}
           ["a"] {| heap := xfaHeap; trace := [] |}).
  vm_compute. reflexivity.
Defined.

Lemma getAcro_fields_panics (ctx : Context) (idx : nat) (pre : Array) :
  forall (i : nat) (acro_fields : list string) (w : World)
         (dns : list (Dict * string)) (o : Object) (post : Array),
  fieldNames ctx (heap w) pre = Some dns ->
  (forall ir, o <> OfIndirectRef ir) ->
  getAcro_fields ctx idx i (pre ++ o :: post) acro_fields w
  = (Panic, {| heap := stampV (map fst dns) (heap w); trace := trace w |}).
Proof.
  induction pre as [|o0 rest IH]; intros i acro_fields w dns o post H Ho.
  - simpl in H. simplify_eq. cbn [app getAcro_fields map stampV].
    destruct o; try (by destruct w). by destruct (Ho ir).
  - cbn [fieldNames] in H.
    destruct (fieldName ctx (heap w) o0) as [[d n]|] eqn:Ho0; [|discriminate].
    destruct (fieldNames ctx (heap w) rest) as [dns'|] eqn:Hr; [|discriminate].
    simplify_eq. cbn [app].
    rewrite (getAcro_fields_step _ _ _ _ _ _ _ _ _ Ho0).
    rewrite (IH _ _ _ dns' o post); [reflexivity| |exact Ho].
    cbn [heap]. by rewrite fieldNames_stamp.
Qed.

(** X21: getAcro panics at the first element of [Fields] that is not an
    indirect reference (a failed type assertion), after having stamped
    the fields before it; nothing is logged or written. *)
Theorem getAcro_panics_at_direct_field (idx : nat) (source : File)
  (acro_fields : list string) (w : World) (ctx : Context)
  (pre : Array) (o : Object) (post : Array) (dns : list (Dict * string)) :
  ReadContext source = inl ctx ->
  formFields (heap w) ctx = Some (pre ++ o :: post) ->
  fieldNames ctx (heap w) pre = Some dns ->
  (forall ir, o <> OfIndirectRef ir) ->
  getAcro idx source acro_fields w
  = (Panic, {| heap := stampV (map fst dns) (heap w); trace := trace w |}).
Proof.
  intros Hctx Hf Hpre Ho. rewrite (getAcro_loop _ _ _ _ _ _ Hctx Hf).
  unfold bind. by rewrite (getAcro_fields_panics _ _ _ 0 _ _ dns o post).
Qed.

Lemma getAcro_panics_at_direct_field_witness :
  fst (getAcro 0 (destFile false) []
         (startWorld [f1; OfDict (Some 3%positive)]))
  = Panic.
Proof.
  rewrite (getAcro_panics_at_direct_field 0 (destFile false) []
             (startWorld [f1; OfDict (Some 3%positive)]) (destDoc ∅ false)
             [f1] (OfDict (Some 3%positive)) [] [(Some 3%positive, "a")]).
  - reflexivity.
  - reflexivity.
  - vm_compute. reflexivity.
  - vm_compute. reflexivity.
  - intros ir. discriminate.
Defined.

(** ** Field Scraper: the request *)

Lemma asStrings_inv (files_interface : list JSON) :
  forall files_list : list string,
  asStrings files_interface = Some files_list ->
  files_interface = map JString files_list.
Proof.
  induction files_interface as [|v rest IH]; intros files_list H.
  - simpl in H. by simplify_eq.
  - cbn [asStrings] in H. destruct v; try discriminate H.
    destruct (asStrings rest) as [l|]; [|discriminate H].
    simplify_eq. cbn [map]. f_equal. by apply IH.
Qed.

(** X22: scrape runs only on a request whose "files" entry is an array
    of strings; on any other request it panics before it touches a file,
    a dictionary or the reply. *)
Theorem scrape_panics_unless_array_of_strings (fs : FileSystem)
  (file_dict : gmap string JSON) (w : World) :
  (forall files_list,
     file_dict !! "files" <> Some (JArray (map JString files_list))) ->
  scrape fs file_dict w = (Panic, w).
Proof.
  intros H. unfold scrape.
  destruct (file_dict !! "files") as [[s|files_interface|]|]; try reflexivity.
  destruct (asStrings files_interface) as [files_list|] eqn:Hs;
    [|reflexivity].
  apply asStrings_inv in Hs. subst. by destruct (H files_list).
Qed.

Lemma scrape_panics_unless_array_of_strings_witness :
  scrape (oneFile false) {[ "files" := JString "a.pdf" ]} (startWorld [f1])
  = (Panic, startWorld [f1]).
Proof.
  apply (scrape_panics_unless_array_of_strings (oneFile false)
           {[ "files" := JString "a.pdf" ]} (startWorld [f1])).
  intros files_list. vm_compute. discriminate.
Defined.

(** ** Field Scraper: the names do not depend on [V], on the position in
    the batch or on earlier scrapes *)

Lemma sameButV_refl (h : Heap) : sameButV h h.
Proof. by intros d k _. Qed.

Lemma sameButV_trans (h1 h2 h3 : Heap) :
  sameButV h1 h2 -> sameButV h2 h3 -> sameButV h1 h3.
Proof. intros H12 H23 d k Hk. by rewrite H12, H23. Qed.

Lemma sameButV_stamp (h1 h2 : Heap) (d : Dict) :
  sameButV h1 h2 ->
  sameButV (snd (Update d "V" (String "STUFF!") h1))
           (snd (Update d "V" (String "STUFF!") h2)).
Proof.
  intros H d' k Hk. unfold Update.
  rewrite !lookup_assign_ne by congruence. by apply H.
Qed.

Lemma sameButV_Find (h1 h2 : Heap) (d : Dict) (k : string) :
  sameButV h1 h2 -> k <> "V" -> Find h1 d k = Find h2 d k.
Proof. intros H Hk. rewrite !Find_lookup. by rewrite (H d k Hk). Qed.

Lemma sameButV_fieldName (ctx : Context) (h1 h2 : Heap) (o : Object) :
  sameButV h1 h2 -> fieldName ctx h1 o = fieldName ctx h2 o.
Proof.
  intros H. unfold fieldName, StringEntry.
  destruct o; try reflexivity.
  destruct (FindTableEntryForIndRef ctx ir) as [[]|]; try reflexivity.
  by rewrite (sameButV_Find h1 h2 d "T" H).
Qed.

Lemma getAcro_fields_independent (ctx : Context) (fields : Array) :
  forall (idx1 idx2 i1 i2 : nat) (acro_fields : list string) (w1 w2 : World),
  sameButV (heap w1) (heap w2) ->
  fst (getAcro_fields ctx idx1 i1 fields acro_fields w1)
  = fst (getAcro_fields ctx idx2 i2 fields acro_fields w2) /\
  sameButV (heap (snd (getAcro_fields ctx idx1 i1 fields acro_fields w1)))
           (heap (snd (getAcro_fields ctx idx2 i2 fields acro_fields w2))).
Proof.
  induction fields as [|o rest IH];
    intros idx1 idx2 i1 i2 acro_fields w1 w2 H; [by split|].
  pose proof (sameButV_fieldName ctx _ _ o H) as Hname.
  destruct (fieldName ctx (heap w2) o) as [[d n]|] eqn:Ho.
  - rewrite (getAcro_fields_step _ _ _ _ _ _ _ _ _ Hname).
    rewrite (getAcro_fields_step _ _ _ _ _ _ _ _ _ Ho).
    apply IH. cbn [heap]. by apply sameButV_stamp.
  - unfold fieldName, StringEntry in Hname, Ho. cbn [getAcro_fields].
    destruct o; try (by split).
    destruct (FindTableEntryForIndRef ctx ir) as [[]|]; try (by split).
    unfold StringEntry.
    destruct (Find (heap w1) d "T") as [[] []]; try discriminate Hname;
      destruct (Find (heap w2) d "T") as [[] []]; try discriminate Ho;
      by split.
Qed.

Lemma getAcro_independent (idx1 idx2 : nat) (source : File)
  (acro_fields : list string) (w1 w2 : World) :
  sameButV (heap w1) (heap w2) ->
  fst (getAcro idx1 source acro_fields w1)
  = fst (getAcro idx2 source acro_fields w2) /\
  sameButV (heap (snd (getAcro idx1 source acro_fields w1)))
           (heap (snd (getAcro idx2 source acro_fields w2))).
Proof.
  intros H. unfold getAcro.
  destruct (ReadContext source) as [ctx|e]; [|by split].
  destruct (Catalog ctx) as [cat [e|]]; [by split|].
  rewrite (sameButV_Find _ _ cat "AcroForm" H) by discriminate.
  destruct (Find (heap w2) cat "AcroForm") as [acroform []]; cbn [negb];
    [|by split].
  destruct (DereferenceDict ctx acroform) as [adict [e|]]; [by split|].
  assert (Harr : ArrayEntry (heap w1) adict "Fields"
                 = ArrayEntry (heap w2) adict "Fields").
  { unfold ArrayEntry.
    by rewrite (sameButV_Find _ _ adict "Fields" H) by discriminate. }
  rewrite Harr. generalize (ArrayEntry (heap w2) adict "Fields").
  intros fields.
  destruct (getAcro_fields_independent ctx fields idx1 idx2 0 0
              acro_fields w1 w2 H) as [Hfst Hheap].
  unfold bind.
  destruct (getAcro_fields ctx idx1 0 fields acro_fields w1)
    as [[[r1 acc1]|] v1];
    destruct (getAcro_fields ctx idx2 0 fields acro_fields w2)
      as [[[r2 acc2]|] v2]; cbn [fst snd] in *; try discriminate Hfst;
    [|by split].
  simplify_eq. destruct r2; by split.
Qed.

Lemma scrape_files_independent (fs : FileSystem) (files_list : list string) :
  forall (idx1 idx2 : nat) (acro_fields : list string) (w1 w2 : World),
  sameButV (heap w1) (heap w2) ->
  fst (scrape_files fs idx1 files_list acro_fields w1)
  = fst (scrape_files fs idx2 files_list acro_fields w2) /\
  sameButV (heap (snd (scrape_files fs idx1 files_list acro_fields w1)))
           (heap (snd (scrape_files fs idx2 files_list acro_fields w2))).
Proof.
  induction files_list as [|f rest IH];
    intros idx1 idx2 acro_fields w1 w2 H; [by split|].
  cbn [scrape_files]. destruct (fs f) as [source|e].
  - destruct (Validate source) as [e|].
    + unfold bind, errorHandler, sendResponse, emit. simpl. by apply IH.
    + destruct (getAcro_independent idx1 idx2 source acro_fields w1 w2 H)
        as [Hfst Hheap].
      unfold bind.
      destruct (getAcro idx1 source acro_fields w1) as [[[res1 acc1]|] v1];
        destruct (getAcro idx2 source acro_fields w2) as [[[res2 acc2]|] v2];
        cbn [fst snd] in *; try discriminate Hfst; [|by split].
      simplify_eq. destruct (res2 =? 0)%Z; by apply IH.
  - unfold bind, errorHandler, sendResponse, emit. simpl. by apply IH.
Qed.

Lemma scrape_sameButV (fs : FileSystem) (file_dict : gmap string JSON)
  (w : World) :
  sameButV (heap (snd (scrape fs file_dict w))) (heap w).
Proof. intros d k Hk. by apply scrape_keeps. Qed.

(** X23: the outcome of scrape (the names, or the panic) depends on no
    [V] entry: on two heaps that differ in [V] entries only, as before
    and after a scrape, it is the same. *)
Theorem scrape_outcome_independent_of_V (fs : FileSystem)
  (file_dict : gmap string JSON) (w1 w2 : World) :
  sameButV (heap w1) (heap w2) ->
  fst (scrape fs file_dict w1) = fst (scrape fs file_dict w2).
Proof.
  intros H. unfold scrape.
  destruct (file_dict !! "files") as [[s|files_interface|]|]; try reflexivity.
  destruct (asStrings files_interface) as [files_list|]; [|reflexivity].
  by apply scrape_files_independent.
Qed.

Lemma scrape_outcome_independent_of_V_witness :
  fst (scrape (oneFile false) twoFilesRequest
         (snd (scrape (oneFile false) twoFilesRequest (startWorld [f1]))))
  = fst (scrape (oneFile false) twoFilesRequest (startWorld [f1])).
Proof.
  apply (scrape_outcome_independent_of_V (oneFile false) twoFilesRequest).
  apply scrape_sameButV.
Defined.

(** X24: a file that cannot be opened or does not validate adds nothing
    to the names: the outcome of scrape, names included, is the same as
    for the request without that file. *)
Theorem scrape_outcome_without_failed_file (fs : FileSystem)
  (file_dict file_dict' : gmap string JSON) (before rest : list string)
  (f : string) (w : World) :
  file_dict !! "files" = Some (JArray (map JString (before ++ f :: rest))) ->
  file_dict' !! "files" = Some (JArray (map JString (before ++ rest))) ->
  match fs f with
  | inl source => isErr (Validate source) = true
  | inr _ => True
  end ->
  fst (scrape fs file_dict w) = fst (scrape fs file_dict' w).
Proof.
  intros H1 H2 Hbad. unfold scrape.
  rewrite H1, H2, !asStrings_JString, !scrape_files_app. unfold bind.
  destruct (scrape_files fs 0 before [] w) as [[acc|] w1]; [|reflexivity].
  assert (Hskip : exists w1', heap w1' = heap w1 /\
            scrape_files fs (0 + length before) (f :: rest) acc w1
            = scrape_files fs (S (0 + length before)) rest acc w1').
  { cbn [scrape_files]. destruct (fs f) as [source|e].
    - destruct (Validate source) as [e|]; [|discriminate Hbad].
      unfold bind, errorHandler, sendResponse, emit. simpl.
      eexists. split; [|reflexivity]. reflexivity.
    - unfold bind, errorHandler, sendResponse, emit. simpl.
      eexists. split; [|reflexivity]. reflexivity. }
  destruct Hskip as (w1' & Hheap & ->).
  apply scrape_files_independent. rewrite Hheap. apply sameButV_refl.
Qed.

Lemma scrape_outcome_without_failed_file_witness :
  fst (scrape (oneFile false) twoFilesRequest (startWorld [f1]))
  = fst (scrape (oneFile false) {[ "files" := JArray [JString "a.pdf"] ]}
           (startWorld [f1])).
Proof.
  apply (scrape_outcome_without_failed_file (oneFile false) twoFilesRequest
           {[ "files" := JArray [JString "a.pdf"] ]} [] ["a.pdf"] "b.pdf").
  - reflexivity.
  - reflexivity.
  - exact I.
Defined.

(** X25: a file that opens and validates and whose fields all pass adds
    their names, in the order of [Fields], after the names collected so
    far; the document is serialised once and the batch goes on with the
    next file. *)
Theorem scrape_files_appends_names_in_order (fs : FileSystem) (idx : nat)
  (f : string) (rest : list string) (acro_fields : list string) (w : World)
  (source : File) (ctx : Context) (fields : Array)
  (dns : list (Dict * string)) :
  fs f = inl source ->
  Validate source = None ->
  ReadContext source = inl ctx ->
  formFields (heap w) ctx = Some fields ->
  fieldNames ctx (heap w) fields = Some dns ->
  scrape_files fs idx (f :: rest) acro_fields w
  = scrape_files fs (S idx) rest (acro_fields ++ map snd dns)
      {| heap := stampV (map fst dns) (heap w);
         trace := trace w ++ [Written ctx "." "tezzting.pdf"] |}.
Proof.
  intros Hfs Hvalid Hctx Hf Hall. cbn [scrape_files].
  rewrite Hfs, Hvalid. unfold bind at 1.
  rewrite (getAcro_loop _ _ _ _ _ _ Hctx Hf). unfold bind at 1.
  rewrite (getAcro_fields_all_named _ _ _ 0 _ _ dns Hall).
  reflexivity.
Qed.

Lemma scrape_files_appends_names_in_order_witness :
  fst (scrape_files (oneFile false) 0 ["a.pdf"] ["z"]
         (startWorld [f1; f1]))
  = Ret ["z"; "a"; "a"].
Proof.
  rewrite (scrape_files_appends_names_in_order (oneFile false) 0 "a.pdf" []
             ["z"] (startWorld [f1; f1]) (destFile false) (destDoc ∅ false)
             [f1; f1] [(Some 3%positive, "a"); (Some 3%positive, "a")]).
  - reflexivity.
  - reflexivity.
  - reflexivity.
  - reflexivity.
  - vm_compute. reflexivity.
  - vm_compute. reflexivity.
Defined.
